(** * Vectorized gym environment manager and DQN construction guard

    A shallow embedding of [gym_wrapper/wrapper_win.py] (classes
    [FakeMultiThread] and [gym_envs]) and of the construction guard of
    [Algorithms/tf2algos/dqn.py], followed by the properties each
    documented behaviour has on that embedding.

    Conventions of the embedding:
    - a Python call that may raise returns a [result]; a method that also
      mutates [self] returns the object after the call next to its result,
      so the mutations made before a [raise] stay visible;
    - Python integers are [Z], Python lists are [list], [None] returned by
      [get_result] is [None] of [option];
    - [np.asarray] over a list of per-slot values is the list itself;
    - [assert] statements are executed (the interpreter does not run
      with [-O]);
    - the threads of one batched call work on distinct environment objects,
      so they are run one after the other in start order. *)

From Stdlib Require Import ZArith Lia Ascii String Sorted.
From stdpp Require Import base list strings gmap.

(** ** Python exceptions and results *)

Inductive exn : Type :=
| AssertionError (msg : string)
| NameError (name : string)
| AttributeError (attr : string)
| IndexError
| TypeError
| ValueError
| Exception (msg : string).

Inductive result (A : Type) : Type :=
| Ok (a : A)
| Raise (e : exn).
Arguments Ok {A} a.
Arguments Raise {A} e.

Definition raises {A} (r : result A) : Prop := ∃ e, r = Raise e.

#[global] Instance result_ret : MRet result := fun A a => Ok a.
#[global] Instance result_bind : MBind result := fun A B f m =>
  match m with Ok a => f a | Raise e => Raise e end.

(** [assert c, msg] *)
Definition py_assert (c : bool) (msg : string) : result unit :=
  if c then Ok tt else Raise (AssertionError msg).

(** ** Python sequences *)

(** [range(n)] *)
Definition range (n : Z) : list Z := Z.of_nat <$> seq 0 (Z.to_nat n).

(** The position addressed by [l[i]] in a list of length [len]: negative
    indices count from the end, anything else out of range is an
    [IndexError] (here [None]). *)
Definition py_slot (len : nat) (i : Z) : option nat :=
  if bool_decide (0 ≤ i < Z.of_nat len)%Z then Some (Z.to_nat i)
  else if bool_decide (- Z.of_nat len ≤ i < 0)%Z then Some (Z.to_nat (Z.of_nat len + i))
  else None.

(** [l[i]] *)
Definition py_getitem {A} (l : list A) (i : Z) : result A :=
  match py_slot (length l) i ≫= (l !!.) with
  | Some x => Ok x
  | None => Raise IndexError
  end.

(** [[f(x) for x in l]] where [f] may raise: stops at the first raise. *)
Fixpoint comprehension {A B} (f : A → result B) (l : list A) : result (list B) :=
  match l with
  | [] => Ok []
  | x :: l' => y ← f x; ys ← comprehension f l'; Ok (y :: ys)
  end.

(** ** gym spaces and the prototype environment *)

Section Classification.
(** [Bound] is the type of [Box.low] / [Box.high]; [Threshold] the type
    of [spec.reward_threshold]. *)
Context {Bound Threshold : Type}.

#[warnings="-register-all"] Inductive space : Type :=
| Box (shape : list Z) (low high : Bound)
| Discrete (n : Z)
| Tuple (spaces : list space)
| OtherSpace.

(** [space.shape]: [()] for [Discrete]; [Tuple] and the other spaces of
    that gym generation have [shape = None], on which [len] fails. *)
Definition shape_of (s : space) : result (list Z) :=
  match s with
  | Box shape _ _ => Ok shape
  | Discrete _ => Ok []
  | Tuple _ | OtherSpace => Raise TypeError
  end.

Definition isinstance_Box (s : space) : bool :=
  match s with Box _ _ _ => true | _ => false end.
Definition isinstance_Discrete (s : space) : bool :=
  match s with Discrete _ => true | _ => false end.

(** [space.n] *)
Definition attr_n (s : space) : result Z :=
  match s with Discrete n => Ok n | _ => Raise (AttributeError "n") end.

(** The prototype handed to [_initialize]; [closed] counts the calls of
    [env.close()] made on it. *)
Record prototype : Type := {
  observation_space : space;
  action_space : space;
  spec_reward_threshold : option Threshold;
  closed : nat;
}.

Definition close (env : prototype) : prototype :=
  {| observation_space := observation_space env;
     action_space := action_space env;
     spec_reward_threshold := spec_reward_threshold env;
     closed := S (closed env) |}.

Inductive obs_kind : Type := visual | vector.
Inductive action_kind : Type := continuous | tuple_discrete | discrete.

(** The attributes [_initialize] stores on the manager. *)
Record descriptor : Type := {
  s_dim : Z;
  obs_bounds : option (Bound * Bound);
  obs_type : obs_kind;
  visual_sources : Z;
  visual_resolution : list Z;
  action_type : action_kind;
  _is_continuous : bool;
  a_dim_or_list : list Z;
  reward_threshold : option Threshold;
}.

Definition msg_available_type : string :=
  "action_space and observation_space must be one of available_type".
Definition msg_continuous_rank : string :=
  "if action space is continuous, the shape length of action must equal to 1".
Definition msg_tuple_items : string :=
  "if action space is Tuple, each item in it must have type Discrete".

(** The observation part of [_initialize] (lines 82-96). *)
Definition process_observation (ObsSpace : space)
  : result (Z * option (Bound * Bound) * obs_kind * Z * list Z) :=
  '(dim, bounds) ←
    match ObsSpace with
    | Box shape low high =>
        Ok (match shape with [d] => d | _ => 0%Z end, Some (high, low))
    | _ => n ← attr_n ObsSpace; Ok (n, None)
    end;
  shape ← shape_of ObsSpace;
  if bool_decide (length shape = 3)
  then Ok (dim, bounds, visual, 1%Z, shape)
  else Ok (dim, bounds, vector, 0%Z, []).

(** The action part of [_initialize] (lines 99-113). *)
Definition process_action (ActSpace : space) : result (action_kind * bool * list Z) :=
  match ActSpace with
  | Box shape _ _ =>
      _ ← py_assert (bool_decide (length shape = 1)) msg_continuous_rank;
      Ok (continuous, true, shape)
  | Tuple slots =>
      _ ← py_assert (forallb isinstance_Discrete slots) msg_tuple_items;
      dims ← comprehension attr_n slots;
      Ok (tuple_discrete, false, dims)
  | _ =>
      n ← attr_n ActSpace;
      Ok (discrete, false, [n])
  end.

(** [gym_envs._initialize]: the prototype after the call and either the
    descriptor or the exception raised. [env.close()] is the last
    statement, so it is reached only when nothing before it raised. The
    attributes assigned before a raise are dropped with the manager,
    whose construction fails. [spec_reward_threshold] is the value of
    [env.env.spec.reward_threshold], [None] when the registry gives none. *)
Definition _initialize (env : prototype) : prototype * result descriptor :=
  let classified :=
    _ ← py_assert
          ((isinstance_Box (observation_space env) || isinstance_Discrete (observation_space env))
           && (isinstance_Box (action_space env) || isinstance_Discrete (action_space env)))
          msg_available_type;
    '(dim, bounds, kind, sources, resolution) ← process_observation (observation_space env);
    '(akind, cont, dims) ← process_action (action_space env);
    Ok {| s_dim := dim; obs_bounds := bounds; obs_type := kind;
          visual_sources := sources; visual_resolution := resolution;
          action_type := akind; _is_continuous := cont; a_dim_or_list := dims;
          reward_threshold := spec_reward_threshold env |} in
  match classified with
  | Ok d => (close env, Ok d)
  | Raise e => (env, Raise e)
  end.
End Classification.
Arguments space : clear implicits.
Arguments prototype : clear implicits.
Arguments descriptor : clear implicits.

(** ** Python strings *)

(** [s.split(sep)] for a one-character separator: the pieces between the
    occurrences of [sep], always at least one piece. *)
Fixpoint split (sep : ascii) (s : string) : list string :=
  match s with
  | EmptyString => [EmptyString]
  | String c s' =>
      if Ascii.eqb c sep then EmptyString :: split sep s'
      else match split sep s' with
           | w :: ws => String c w :: ws
           | [] => [String c EmptyString]
           end
  end.

(** [s.count(c)] for a one-character [c]; used to say how many pieces
    [split] returns. *)
Fixpoint occurrences (c : ascii) (s : string) : nat :=
  match s with
  | EmptyString => 0
  | String c' s' => (if Ascii.eqb c' c then 1 else 0) + occurrences c s'
  end.

(** The ASCII characters [int] skips as blanks around a number: tab,
    line feed, vertical tab, form feed, carriage return and the space
    (the separators 28 to 31, blanks for [str.strip], are not). *)
Definition py_isspace (c : ascii) : bool :=
  let k := nat_of_ascii c in
  bool_decide (9 ≤ k ≤ 13) || bool_decide (k = 32).

(** Every character of the string is an ASCII character. *)
Fixpoint is_ascii (s : string) : bool :=
  match s with
  | EmptyString => true
  | String c s' => bool_decide (nat_of_ascii c < 128) && is_ascii s'
  end.

Fixpoint lstrip (s : string) : string :=
  match s with
  | String c s' => if py_isspace c then lstrip s' else s
  | EmptyString => EmptyString
  end.

Definition digit_of (c : ascii) : option Z :=
  let k := nat_of_ascii c in
  if bool_decide (48 ≤ k ≤ 57) then Some (Z.of_nat (k - 48)) else None.

(** Reads a maximal run of decimal digits with accumulator [acc]; returns
    the value, the number of digits read and the unread rest. *)
Fixpoint read_digits (acc : Z) (count : nat) (s : string) : Z * nat * string :=
  match s with
  | String c s' =>
      match digit_of c with
      | Some d => read_digits (10 * acc + d)%Z (S count) s'
      | None => (acc, count, s)
      end
  | EmptyString => (acc, count, s)
  end.

(** [int(s)] on an ASCII string without underscores (the strings it is
    applied to come out of [split "_"]): blanks, an optional sign, at
    least one decimal digit, blanks; anything else is a [ValueError].
    [int] also reads the decimal digits and the blanks of other scripts;
    a string with a character beyond ASCII is outside this definition,
    and what is stated through it is stated for [is_ascii] strings. *)
Definition py_int (s : string) : result Z :=
  let body := lstrip s in
  let '(sign, digits) :=
    match body with
    | String "-" r => ((-1)%Z, r)
    | String "+" r => (1%Z, r)
    | _ => (1%Z, body)
    end in
  let '(value, count, rest) := read_digits 0 0 digits in
  match count, lstrip rest with
  | S _, EmptyString => Ok (sign * value)%Z
  | _, _ => Raise ValueError
  end.

(** ** The environment collaborator *)

(** What an environment receives as its action: one scalar or one row. *)
Inductive action (Sc : Type) : Type :=
| AScalar (x : Sc)
| ARow (row : list Sc).
Arguments AScalar {Sc} x.
Arguments ARow {Sc} row.

(** The capability set the manager calls on each instance. Every method
    returns the instance after the call, also when it raises. *)
Class Environment (E : Type) : Type := {
  obs : Type;
  rew : Type;
  info : Type;
  scalar : Type;
  env_reset : E → E * result obs;
  env_step : E → action scalar → E * result (obs * rew * bool * info);
  env_render : E → E * result unit;
}.

(** ** FakeMultiThread *)

(** The [result] attribute of a thread object: absent until [run] stores
    the value its function returned. *)
Inductive attribute (R : Type) : Type :=
| Unset
| Stored (r : R).
Arguments Unset {R}.
Arguments Stored {R} r.

(** [FakeMultiThread.run] on the outcome of [self.func( *self.args)]: a
    raise inside the thread ends the thread before the assignment. *)
Definition run {R} (outcome : result R) : attribute R :=
  match outcome with
  | Ok r => Stored r
  | Raise _ => Unset
  end.

(** [FakeMultiThread.get_result]: reading an absent attribute raises
    [AttributeError], which the [except Exception] turns into [None]. *)
Definition get_result {R} (th : attribute R) : option R :=
  match th with
  | Stored r => Some r
  | Unset => None
  end.

(** ** The manager object *)

(** [dones_index] is a Python list after [reset] and a numpy array after
    [step]; only the array has [.shape]. *)
Inductive dones_value : Type :=
| PyList (items : list Z)
| NdArray (items : list Z).

Definition dones_items (d : dones_value) : list Z :=
  match d with PyList l | NdArray l => l end.

(** [d.shape[0]] *)
Definition dones_shape0 (d : dones_value) : result Z :=
  match d with
  | NdArray l => Ok (Z.of_nat (length l))
  | PyList _ => Raise (AttributeError "shape")
  end.

(** The attributes of a [gym_envs] object the methods below read or
    write; an attribute not assigned yet is [None]. *)
Record gym_envs (E : Type) : Type := {
  n : Z;
  envs : list E;
  mgr_action_type : action_kind;
  render_index : option (list Z);
  dones_index : option dones_value;
}.
Arguments n {E} _.
Arguments envs {E} _.
Arguments mgr_action_type {E} _.
Arguments render_index {E} _.
Arguments dones_index {E} _.

Definition set_envs {E} (self : gym_envs E) (es : list E) : gym_envs E :=
  {| n := n self; envs := es; mgr_action_type := mgr_action_type self;
     render_index := render_index self; dones_index := dones_index self |}.
Definition set_render_index {E} (self : gym_envs E) (r : list Z) : gym_envs E :=
  {| n := n self; envs := envs self; mgr_action_type := mgr_action_type self;
     render_index := Some r; dones_index := dones_index self |}.
Definition set_dones_index {E} (self : gym_envs E) (d : dones_value) : gym_envs E :=
  {| n := n self; envs := envs self; mgr_action_type := mgr_action_type self;
     render_index := render_index self; dones_index := Some d |}.

(** The same object with [dones_index] in any state, unassigned included. *)
Definition with_dones_index {E} (self : gym_envs E) (d : option dones_value) : gym_envs E :=
  {| n := n self; envs := envs self; mgr_action_type := mgr_action_type self;
     render_index := render_index self; dones_index := d |}.

(** The construction invariant [self.envs = [get_env(...) for _ in range(self.n)]]. *)
Definition well_formed {E} (self : gym_envs E) : Prop :=
  Z.of_nat (length (envs self)) = n self.

(** Two states of a manager with the same instance count, as many
    instances, the same action kind and the same [render_index]. *)
Definition same_layout {E} (self self' : gym_envs E) : Prop :=
  n self' = n self
  ∧ length (envs self') = length (envs self)
  ∧ mgr_action_type self' = mgr_action_type self
  ∧ render_index self' = render_index self.

(** ** Render-index resolution *)

(** An item of a render list, as far as [isinstance(i, int)] tells. *)
Inductive item : Type :=
| PyInt (z : Z)
| NotInt.

Definition isinstance_int (i : item) : bool :=
  match i with PyInt _ => true | NotInt => false end.

Inductive render_mode : Type :=
| RenderList (items : list item)
| RenderStr (s : string)
| RenderOther.

Definition msg_render_type : string := "render_mode must have type of str or list.".
Definition msg_render_items : string := "items in render list must have type of int".
Definition msg_render_any : string :=
  "render_mode must be first, last, all, [list] or random_[num]".

Section RenderIndex.
Context {E : Type}.
(** [random.sample(population, k)]: the draw is left to the caller. *)
Variable random_sample : list Z → Z → list Z.

(** [gym_envs._get_render_index]. In the list branch the name [index] of
    the two range assertions is bound nowhere (neither in the method, nor
    in the module, nor as a builtin), so evaluating [min(index)] raises
    [NameError]. In the string branch the last [else] of the chain has no
    [else] of its own: a string that is none of the recognised forms
    leaves the method without assigning [render_index]. The final
    [else: raise Exception(...)] belongs to the outer [isinstance] chain
    and is reached by no value that passed the first assertion. *)
Definition _get_render_index (self : gym_envs E) (mode : render_mode)
  : gym_envs E * result unit :=
  match mode with
  | RenderOther => (self, Raise (AssertionError msg_render_type))
  | RenderList items =>
      if forallb isinstance_int items
      then (self, Raise (NameError "index"))
      else (self, Raise (AssertionError msg_render_items))
  | RenderStr s =>
      if String.eqb s "first" then (set_render_index self [0%Z], Ok tt)
      else if String.eqb s "last" then (set_render_index self [(-1)%Z], Ok tt)
      else if String.eqb s "all" then (set_render_index self (range (n self)), Ok tt)
      else
        match split "_" s with
        | [a; b] =>
            if String.eqb a "random" then
              match py_int b with
              | Raise e => (self, Raise e)
              | Ok k =>
                  if bool_decide (0 < k ≤ n self)%Z
                  then (set_render_index self (random_sample (range (n self)) k), Ok tt)
                  else (self, Ok tt)
              end
            else (self, Ok tt)
        | _ => (self, Raise ValueError)
        end
  end.
End RenderIndex.

(** ** numpy helpers *)

(** An action batch: a numpy array of rank 1 or of rank 2 (given by its
    rows, all of one length). *)
Inductive ndarray (Sc : Type) : Type :=
| Arr1 (v : list Sc)
| Arr2 (rows : list (list Sc)).
Arguments Arr1 {Sc} v.
Arguments Arr2 {Sc} rows.

(** [a.reshape(-1,)] *)
Definition flatten {Sc} (a : ndarray Sc) : list Sc :=
  match a with
  | Arr1 v => v
  | Arr2 rows => concat rows
  end.

(** [count] consecutive rows of [width] items each. *)
Fixpoint chunks {Sc} (count width : nat) (flat : list Sc) : list (list Sc) :=
  match count with
  | O => []
  | S count' => take width flat :: chunks count' width (drop width flat)
  end.

(** [a.reshape(n, -1).tolist()]: fails unless [n] is positive and divides
    the number of items. *)
Definition reshape_rows {Sc} (n : Z) (a : ndarray Sc) : result (list (list Sc)) :=
  let flat := flatten a in
  let size := Z.of_nat (length flat) in
  if bool_decide (0 < n)%Z && bool_decide (size mod n = 0)%Z
  then Ok (chunks (Z.to_nat n) (Z.to_nat (size / n)) flat)
  else Raise ValueError.

(** [np.where(done)[0]], counting positions from [k]. *)
Fixpoint where_from (k : Z) (done : list bool) : list Z :=
  match done with
  | [] => []
  | b :: done' =>
      if b then k :: where_from (k + 1) done' else where_from (k + 1) done'
  end.

Definition np_where (done : list bool) : list Z := where_from 0 done.

#[global] Instance result_fmap : FMap result := fun A B f m =>
  match m with Ok a => Ok (f a) | Raise e => Raise e end.

(** ** Batched operations of the manager *)

Section Manager.
Context {E : Type} `{Environment E}.

(** A thread that is created but not started: the slot of the environment
    whose bound method it will call, and that call. *)
Definition task (R : Type) : Type := (nat * (E → E * result R))%type.

(** [for th in threadpool: th.start()] followed by the joins: every
    thread runs its call on its environment and stores the result, if
    any. The environments after the joins and the thread objects. A
    slot was looked up in [self.envs] when its task was created and the
    list never changes length, so the [None] case below is not met by a
    pool the methods build. The pools of [reset] and [step] hold one
    task per slot, and the indices [np.where] puts in [dones_index] are
    distinct, so no two threads of a pool share an environment. *)
Fixpoint start_join {R} (pool : list (task R)) (es : list E)
  : list E * list (attribute R) :=
  match pool with
  | [] => (es, [])
  | (k, f) :: pool' =>
      match es !! k with
      | Some e =>
          let '(e', outcome) := f e in
          let '(es', ths) := start_join pool' (<[k := e']> es) in
          (es', run outcome :: ths)
      | None =>
          let '(es', ths) := start_join pool' es in
          (es', Unset :: ths)
      end
  end.

(** [self.envs[i]], as the slot it denotes. *)
Definition env_at (self : gym_envs E) (i : Z) : result nat :=
  match py_slot (length (envs self)) i with
  | Some k => Ok k
  | None => Raise IndexError
  end.

(** [[threadpool[i].get_result() for i in range(count)]] *)
Definition collect {R} (ths : list (attribute R)) (count : Z) : result (list (option R)) :=
  comprehension (λ i, get_result <$> py_getitem ths i) (range count).

(** The thread pool of [reset] and [partial_reset]: one task calling
    [self.envs[i].reset] per [i] in [indices]. *)
Definition reset_pool (self : gym_envs E) (indices : list Z) : result (list (task obs)) :=
  comprehension (λ i, k ← env_at self i; Ok (k, env_reset)) indices.

(** [gym_envs.reset] *)
Definition reset (self : gym_envs E) : gym_envs E * result (list (option obs)) :=
  let self := set_dones_index self (PyList []) in
  match reset_pool self (range (n self)) with
  | Raise e => (self, Raise e)
  | Ok threadpool =>
      let '(es, ths) := start_join threadpool (envs self) in
      (set_envs self es, collect ths (n self))
  end.

(** The reshaping at the head of [step], and what [actions[i]] then is. *)
Definition reshape_actions (kind : action_kind) (n : Z) (actions : ndarray scalar)
  : result (list (action scalar)) :=
  match kind with
  | discrete => Ok (map AScalar (flatten actions))
  | tuple_discrete => rows ← reshape_rows n actions; Ok (map ARow rows)
  | continuous =>
      match actions with
      | Arr1 v => Ok (map AScalar v)
      | Arr2 rows => Ok (map ARow rows)
      end
  end.

(** The thread pool of [step]: one task per [i] in [range(self.n)]. *)
Definition step_pool (self : gym_envs E) (actions : ndarray scalar)
  : result (list (task (obs * rew * bool * info))) :=
  acts ← reshape_actions (mgr_action_type self) (n self) actions;
  comprehension
    (λ i, k ← env_at self i; a ← py_getitem acts i; Ok (k, λ e, env_step e a))
    (range (n self)).

(** [obs, reward, done, info = [np.asarray(e) for e in zip( *results)]]:
    [zip] refuses a [None] argument, and with no argument at all there
    is nothing to unpack. *)
Fixpoint transpose4 {A B C D} (results : list (option (A * B * C * D)))
  : result (list A * list B * list C * list D) :=
  match results with
  | [] => Ok ([], [], [], [])
  | None :: _ => Raise TypeError
  | Some (a, b, c, d) :: results' =>
      '(la, lb, lc, ld) ← transpose4 results';
      Ok (a :: la, b :: lb, c :: lc, d :: ld)
  end.

Definition unzip4 {A B C D} (results : list (option (A * B * C * D)))
  : result (list A * list B * list C * list D) :=
  channels ← transpose4 results;
  match results with
  | [] => Raise ValueError
  | _ => Ok channels
  end.

(** [gym_envs.step] *)
Definition step (self : gym_envs E) (actions : ndarray scalar)
  : gym_envs E * result (list obs * list rew * list bool * list info) :=
  match step_pool self actions with
  | Raise e => (self, Raise e)
  | Ok threadpool =>
      let '(es, ths) := start_join threadpool (envs self) in
      let self := set_envs self es in
      match results ← collect ths (n self); unzip4 results with
      | Raise e => (self, Raise e)
      | Ok (observations, reward, done, infos) =>
          (set_dones_index self (NdArray (np_where done)),
           Ok (observations, reward, done, infos))
      end
  end.

(** [gym_envs.partial_reset] *)
Definition partial_reset (self : gym_envs E) : gym_envs E * result (list (option obs)) :=
  match dones_index self with
  | None => (self, Raise (AttributeError "dones_index"))
  | Some d =>
      match reset_pool self (dones_items d) with
      | Raise e => (self, Raise e)
      | Ok threadpool =>
          let '(es, ths) := start_join threadpool (envs self) in
          (set_envs self es, count ← dones_shape0 d; collect ths count)
      end
  end.

(** [[self.envs[i].render() for i in self.render_index]] *)
Fixpoint render_each (indices : list Z) (es : list E) : list E * result unit :=
  match indices with
  | [] => (es, Ok tt)
  | i :: indices' =>
      match py_slot (length es) i ≫= (λ k, (k,.) <$> es !! k) with
      | None => (es, Raise IndexError)
      | Some (k, e) =>
          let '(e', r) := env_render e in
          match r with
          | Ok _ => render_each indices' (<[k := e']> es)
          | Raise x => (<[k := e']> es, Raise x)
          end
      end
  end.

(** [gym_envs.render] *)
Definition render (self : gym_envs E) : gym_envs E * result unit :=
  match render_index self with
  | None => (self, Raise (AttributeError "render_index"))
  | Some indices =>
      let '(es, r) := render_each indices (envs self) in (set_envs self es, r)
  end.
End Manager.

(** ** DQN construction *)

Section DQN.
Context {Args Agent : Type}.
(** Everything [DQN.__init__] does after its first statement, from
    [super().__init__(...)] to [self.model_recorder(...)]. *)
Variable rest_of_init : Args → bool → result Agent.

Definition msg_dqn : string := "dqn only support discrete action space".

(** [DQN.__init__]: the guard, then the rest. *)
Definition DQN_init (args : Args) (is_continuous : bool) : result Agent :=
  _ ← py_assert (negb is_continuous) msg_dqn;
  rest_of_init args is_continuous.
End DQN.

(** ** Calls on every instance: [close] and [sample_actions] *)

Section EachInstance.
Context {E : Type}.

(** [[env.method() for env in self.envs]]: the instances are called in
    slot order, each call may change its instance, and the comprehension
    ends at the first call that raises, leaving the later instances
    uncalled. *)
Fixpoint call_each {A} (method : E → E * result A) (es : list E)
  : list E * result (list A) :=
  match es with
  | [] => ([], Ok [])
  | e :: es' =>
      let '(e', r) := method e in
      match r with
      | Raise x => (e' :: es', Raise x)
      | Ok a =>
          let '(es'', rs) := call_each method es' in
          (e' :: es'', (a ::.) <$> rs)
      end
  end.

(** [env.close()] and [env.action_sample()] of the collaborator; [Act]
    is what [action_sample] returns. *)
Context {Act : Type}.
Variable env_close : E → E * result unit.
Variable env_action_sample : E → E * result Act.

(** [gym_envs.close] (the name [close] is the prototype's): the list it
    builds is dropped. *)
Definition gym_envs_close (self : gym_envs E) : gym_envs E * result unit :=
  let '(es, r) := call_each env_close (envs self) in
  (set_envs self es, (λ _, ()) <$> r).

(** [gym_envs.sample_actions] *)
Definition sample_actions (self : gym_envs E) : gym_envs E * result (list Act) :=
  let '(es, r) := call_each env_action_sample (envs self) in
  (set_envs self es, r).
End EachInstance.

(** ** Construction of the manager *)

Section Construction.
Context {E Bound Threshold : Type}.
(** [gym.make] and the wrapper classes of [.wrappers]; what an
    environment shows of its spaces and of [env.env.spec]; [env.seed];
    the draw of [random.sample]. *)
Variable gym_make : string → result E.
Variables BaseEnv SkipEnv ScaleEnv StackEnv OneHotObsEnv BoxActEnv : E → E.
Variable GrayResizeEnv : E → bool → bool → E.
Variables observation_space_of action_space_of : E → space Bound.
Variable reward_threshold_of : E → option Threshold.
Variable env_seed : E → Z → E * result unit.
Variable random_sample : list Z → Z → list Z.

(** The local function [get_env] of [__init__]; [GrayResizeEnv env r g]
    is [GrayResizeEnv(env, resize=r, grayscale=g)]. *)
Definition get_env (gym_env_name : string) (skip stack grayscale resize scale : bool)
  : result E :=
  env ← gym_make gym_env_name;
  let env := BaseEnv env in
  let env := if skip then SkipEnv env else env in
  let env :=
    match observation_space_of env with
    | Box shape _ _ =>
        let env :=
          if bool_decide (length shape = 3) then
            let env := if grayscale || resize
                       then GrayResizeEnv env resize grayscale else env in
            if scale then ScaleEnv env else env
          else env in
        if stack then StackEnv env else env
    | _ => OneHotObsEnv env
    end in
  match action_space_of env with
  | Box shape _ _ => if bool_decide (length shape = 1) then Ok (BoxActEnv env) else Ok env
  | _ => Ok env
  end.

(** The prototype as [_initialize] sees it, not closed yet. *)
Definition as_prototype (env : E) : prototype Bound Threshold :=
  {| observation_space := observation_space_of env;
     action_space := action_space_of env;
     spec_reward_threshold := reward_threshold_of env;
     closed := 0 |}.

(** [[env.seed(s) for env, s in zip(self.envs, self.seeds)]] *)
Fixpoint seed_each (es : list E) (seeds : list Z) : list E * result unit :=
  match es, seeds with
  | e :: es', s :: seeds' =>
      let '(e', r) := env_seed e s in
      match r with
      | Raise x => (e' :: es', Raise x)
      | Ok _ => let '(es'', r') := seed_each es' seeds' in (e' :: es'', r')
      end
  | _, _ => (es, Ok ())
  end.

(** [bool(kwargs.get(key, False))], the values of [kwargs] taken by
    their truth value. *)
Definition flag (kwargs : gmap string bool) (key : string) : bool :=
  default false (kwargs !! key).

(** [gym_envs.__init__], with [seed] and [render_mode] always given. A
    construction that returns yields the manager, the descriptor
    [_initialize] stored on it and [self.seeds]; one that raises yields
    no object. *)
Definition __init__ (gym_env_name : string) (n : Z) (seed : Z) (mode : render_mode)
  (kwargs : gmap string bool) : result (gym_envs E * descriptor Bound Threshold * list Z) :=
  let make := get_env gym_env_name (flag kwargs "skip") (flag kwargs "stack")
                (flag kwargs "grayscale") (flag kwargs "resize") (flag kwargs "scale") in
  prototype_env ← make;
  d ← (_initialize (as_prototype prototype_env)).2;
  es ← comprehension (λ _, make) (range n);
  let seeds := (λ i, seed + i)%Z <$> range n in
  let '(es, seeded) := seed_each es seeds in
  _ ← seeded;
  let self := {| n := n; envs := es; mgr_action_type := action_type d;
                 render_index := None; dones_index := None |} in
  let '(self, resolved) := _get_render_index random_sample self mode in
  _ ← resolved;
  Ok (self, d, seeds).
End Construction.

(** ** A stub environment *)

(** An episode of the stub ends with its second step; a [broken] stub
    raises on every call. [resets] counts the resets it went through. *)
Record stub : Type := {
  age : nat;
  resets : nat;
  broken : bool;
}.

#[global] Instance stub_environment : Environment stub := {|
  obs := nat;
  rew := Z;
  info := unit;
  scalar := Z;
  env_reset e :=
    if broken e then (e, Raise (Exception "broken"))
    else ({| age := 0; resets := S (resets e); broken := false |}, Ok 0);
  env_step e _ :=
    if broken e then (e, Raise (Exception "broken"))
    else ({| age := S (age e); resets := resets e; broken := false |},
          Ok (S (age e), 1%Z, bool_decide (2 ≤ S (age e)), tt));
  env_render e := (e, Ok tt);
|}.

Definition fresh : stub := {| age := 0; resets := 0; broken := false |}.
Definition faulty : stub := {| age := 0; resets := 0; broken := true |}.

Definition manager_of (es : list stub) : gym_envs stub :=
  {| n := Z.of_nat (length es); envs := es; mgr_action_type := discrete;
     render_index := None; dones_index := None |}.

(** A draw for [random.sample]: the first [k] of the population. *)
Definition first_k (population : list Z) (k : Z) : list Z := take (Z.to_nat k) population.

(** Two stubs, after [reset()] and one [step], and after a second [step]
    that ends both episodes. *)
Definition two_fresh : gym_envs stub := manager_of [fresh; fresh].
Definition stepped_once : gym_envs stub := (step (reset two_fresh).1 (Arr1 [0; 1]%Z)).1.
Definition both_done : gym_envs stub := (step stepped_once (Arr1 [1; 0]%Z)).1.

(** Four stubs of which those in slots 1 and 3 are one step from the end
    of their episode. *)
Definition seasoned : stub := {| age := 1; resets := 1; broken := false |}.
Definition staggered : gym_envs stub := manager_of [fresh; seasoned; fresh; seasoned].

(** Closing a stub leaves it unusable; a broken stub cannot be closed.
    A stub samples its age as its action. *)
Definition stub_close (e : stub) : stub * result unit :=
  if broken e then (e, Raise (Exception "broken"))
  else ({| age := age e; resets := resets e; broken := true |}, Ok ()).

Definition stub_action_sample (e : stub) : stub * result Z :=
  if broken e then (e, Raise (Exception "broken")) else (e, Ok (Z.of_nat (age e))).

(** A registry with one environment id, wrappers that add nothing, a
    vector observation and a two-way discrete action. *)
Definition stub_make (gym_env_name : string) : result stub :=
  if String.eqb gym_env_name "Stub-v0" then Ok fresh else Raise (Exception "unknown id").

Definition stub_observation_space (e : stub) : space unit := Box [4%Z] () ().
Definition stub_action_space (e : stub) : space unit := Discrete 2.
Definition stub_threshold (e : stub) : option Z := Some 195%Z.
Definition stub_seed (e : stub) (s : Z) : stub * result unit :=
  ({| age := age e; resets := Z.to_nat s; broken := broken e |}, Ok ()).

Definition stub_init (n seed : Z) (mode : render_mode) (kwargs : gmap string bool)
  : result (gym_envs stub * descriptor unit Z * list Z) :=
  __init__ stub_make id id id id id id (λ e _ _, e)
    stub_observation_space stub_action_space stub_threshold stub_seed first_k
    "Stub-v0" n seed mode kwargs.

(** A manager that counts three instances and holds two. *)
Definition short_handed : gym_envs stub :=
  {| n := 3; envs := [fresh; fresh]; mgr_action_type := discrete;
     render_index := None; dones_index := None |}.

(** A [close] that never raises. *)
Definition stub_shut (e : stub) : stub * result unit :=
  ({| age := age e; resets := resets e; broken := true |}, Ok ()).

(** A family with a tuple action space. *)
Definition stub_tuple_action_space (e : stub) : space unit := Tuple [Discrete 2; Discrete 3].

(** * Properties *)

(** ** Space classification *)

Section ClassificationFacts.
Context {Bound Threshold : Type}.
Implicit Types (env : prototype Bound Threshold) (s : space Bound).

Lemma comprehension_attr_n_discrete (slots : list (space Bound)) :
  forallb isinstance_Discrete slots = true →
  ∃ dims, comprehension attr_n slots = Ok dims ∧ Forall2 (λ s d, s = Discrete d) slots dims.
Proof.
  induction slots as [|s slots IH]; simpl; intros Hall.
  - exists []. split; [reflexivity | constructor].
  - apply andb_true_iff in Hall as [Hs Hrest].
    destruct (IH Hrest) as (dims & Hdims & Hrel).
    destruct s; try discriminate.
    exists (n0 :: dims). cbn. rewrite Hdims. split; [reflexivity | by constructor].
Qed.

(** The [Tuple] branch of the action part, taken alone, does classify a
    tuple of discrete slots and lists the per-slot counts in order. *)
Lemma process_action_tuple (slots : list (space Bound)) :
  forallb isinstance_Discrete slots = true →
  ∃ dims, process_action (Tuple slots) = Ok (tuple_discrete, false, dims)
          ∧ Forall2 (λ s d, s = Discrete d) slots dims.
Proof.
  intros Hall. destruct (comprehension_attr_n_discrete slots Hall) as (dims & Hdims & Hrel).
  exists dims. split; [|done].
  unfold process_action. rewrite Hall. cbn. by rewrite Hdims.
Qed.

(** C5 (as the code behaves): the first assertion of [_initialize] admits
    only [Box] and [Discrete] action spaces, so a prototype whose action
    space is a [Tuple] - of discrete slots or not - fails classification
    with that assertion's error, before the [Tuple] branch is reached and
    without the prototype being closed. *)
Theorem initialize_rejects_tuple_action
  (o : space Bound) (slots : list (space Bound)) (thr : option Threshold) (c : nat) :
  _initialize {| observation_space := o; action_space := Tuple slots;
                 spec_reward_threshold := thr; closed := c |}
  = ({| observation_space := o; action_space := Tuple slots;
        spec_reward_threshold := thr; closed := c |},
     Raise (AssertionError msg_available_type)).
Proof.
  unfold _initialize. cbn. by rewrite andb_false_r.
Qed.

(** C6 (amended): classification closes the prototype exactly when it
    runs to completion; when it raises, the prototype is left as it was,
    not closed. *)
Theorem initialize_closes_only_on_success env :
  match (_initialize env).2 with
  | Ok _ => (_initialize env).1 = close env
  | Raise _ => (_initialize env).1 = env
  end.
Proof.
  destruct (_initialize env) as [env' r] eqn:Hinit.
  unfold _initialize in Hinit. cbv zeta in Hinit.
  match type of Hinit with
  | match ?c with Ok _ => _ | Raise _ => _ end = _ => destruct c
  end; inversion Hinit; reflexivity.
Qed.
End ClassificationFacts.

(** C6 (refuted as stated): a prototype with a rank-2 continuous action
    space fails classification and no [close] call has reached it. *)
Lemma initialize_failure_skips_close :
  let env := {| observation_space := Box [4%Z] () (); action_space := Box [2%Z; 2%Z] () ();
                spec_reward_threshold := Some 195%Z; closed := 0 |} in
  (_initialize env).2 = Raise (AssertionError msg_continuous_rank)
  ∧ closed (_initialize env).1 = 0
  ∧ (_initialize env).1 ≠ close env.
Proof. cbv zeta. split; [reflexivity | split; [reflexivity | discriminate]]. Qed.

(** ** DQN construction *)

(** C10: with [is_continuous] true the constructor raises at its guard,
    whatever the rest of the constructor would do; hence a construction
    that succeeded had [is_continuous] false. *)
Theorem DQN_init_requires_discrete {Args Agent : Type}
  (rest_of_init : Args → bool → result Agent) (args : Args) :
  DQN_init rest_of_init args true = Raise (AssertionError msg_dqn)
  ∧ ∀ is_continuous agent,
      DQN_init rest_of_init args is_continuous = Ok agent → is_continuous = false.
Proof.
  split; [reflexivity|].
  intros [] agent; [discriminate | reflexivity].
Qed.

Lemma DQN_init_requires_discrete_witness :
  DQN_init (λ (_ : unit) (_ : bool), Ok 7) () true = Raise (AssertionError msg_dqn)
  ∧ false = false.
Proof.
  split.
  - exact (proj1 (DQN_init_requires_discrete (λ _ _, Ok 7) ())).
  - exact (proj2 (DQN_init_requires_discrete (λ _ _, Ok 7) ()) false 7 eq_refl).
Defined.

(** ** Render-index resolution *)

Section RenderIndexFacts.
Context {E : Type} `{Environment E}.
Variable random_sample : list Z → Z → list Z.
Implicit Types self : gym_envs E.

Lemma forallb_isinstance_int (indices : list Z) :
  forallb isinstance_int (PyInt <$> indices) = true.
Proof. induction indices as [|z indices IH]; [reflexivity | exact IH]. Qed.

(** C2 (as the code behaves): for every list of integers, in range or
    not, empty or not, resolution raises [NameError] at the first range
    assertion, whose operand [index] is unbound; [render_index] is never
    assigned from a list. *)
Theorem render_list_always_raises_NameError self (indices : list Z) :
  _get_render_index random_sample self (RenderList (PyInt <$> indices))
  = (self, Raise (NameError "index")).
Proof.
  unfold _get_render_index. by rewrite forallb_isinstance_int.
Qed.

Lemma py_slot_last (len : nat) :
  1 ≤ len → py_slot len (-1) = Some (len - 1).
Proof.
  intros Hlen. unfold py_slot.
  rewrite bool_decide_eq_false_2 by lia.
  rewrite bool_decide_eq_true_2 by lia.
  f_equal. lia.
Qed.

(** C7 (amended): for every manager, whatever its instance count N,
    resolving ["last"] returns and stores the one-element list [[-1]];
    for every manager holding its N >= 1 instances, Python's indexing
    from the end makes that index denote slot N - 1, and [render()] then
    renders the instance in slot N - 1 and no other. *)
Theorem render_last_is_minus_one self :
  let self' := (_get_render_index random_sample self (RenderStr "last")).1 in
  _get_render_index random_sample self (RenderStr "last") = (set_render_index self [(-1)%Z], Ok ())
  ∧ render_index self' = Some [(-1)%Z]
  ∧ (well_formed self → (1 ≤ n self)%Z →
     py_slot (length (envs self')) (-1) = Some (Z.to_nat (n self - 1))
     ∧ ∃ e, envs self !! Z.to_nat (n self - 1) = Some e
            ∧ render self'
              = (set_envs self' (<[Z.to_nat (n self - 1) := (env_render e).1]> (envs self)),
                 (env_render e).2)).
Proof.
  cbn. split; [reflexivity|]. split; [reflexivity|].
  intros Hwf Hn. unfold well_formed in Hwf.
  assert (Hslot : py_slot (length (envs self)) (-1) = Some (Z.to_nat (n self - 1))).
  { rewrite py_slot_last by lia. f_equal. lia. }
  split; [exact Hslot|].
  destruct (lookup_lt_is_Some_2 (envs self) (Z.to_nat (n self - 1))) as [e He]; [lia|].
  exists e. split; [exact He|].
  unfold render. cbn. rewrite Hslot. cbn. rewrite He. cbn.
  destruct (env_render e) as [e' [[]|x]]; reflexivity.
Qed.

(** C8 (as the code behaves): the string branch has no fallback. A
    ["random_K"] whose K exceeds the instance count, here ["random_9"]
    with fewer than nine instances, makes resolution return normally
    and leaves the manager, [render_index] included, untouched. *)
Theorem render_random_out_of_range_is_silent self :
  (n self < 9)%Z →
  _get_render_index random_sample self (RenderStr "random_9") = (self, Ok ()).
Proof.
  intros Hn. unfold _get_render_index.
  change (split "_" "random_9") with ["random"; "9"].
  cbn -[bool_decide]. change (py_int "9") with (Ok 9%Z). cbv beta iota.
  rewrite bool_decide_eq_false_2 by lia. reflexivity.
Qed.

(** A string whose first of two pieces is not ["random"] is accepted in
    silence too; the second piece is not even read. *)
Lemma render_foreign_prefix_is_silent self (a b : string) :
  a ≠ "first" → a ≠ "last" → a ≠ "all" → a ≠ "random" →
  split "_" (a +:+ "_" +:+ b) = [a; b] →
  _get_render_index random_sample self (RenderStr (a +:+ "_" +:+ b)) = (self, Ok ()).
Proof.
  intros Hfirst Hlast Hall Hrandom Hsplit. unfold _get_render_index.
  assert (Hne : ∀ w, a ≠ w → split "_" w = [w] → (a +:+ "_" +:+ b =? w)%string = false).
  { intros w Hw Hw1. apply String.eqb_neq. intros Heq. rewrite Heq in Hsplit. congruence. }
  rewrite !Hne by (done || reflexivity).
  rewrite Hsplit. by apply String.eqb_neq in Hrandom as ->.
Qed.

(** ["bogus"] does fail, though not at a validation: [split] returns one
    piece and unpacking it into two names raises [ValueError]. *)
Lemma render_bogus_raises_ValueError self :
  _get_render_index random_sample self (RenderStr "bogus") = (self, Raise ValueError).
Proof. reflexivity. Qed.
End RenderIndexFacts.

(** C7 (refuted as stated): with five instances, ["last"] resolves to
    [[-1]], which is not the list [[4]]. *)
Lemma render_last_is_not_count_minus_one :
  let self := manager_of (replicate 5 fresh) in
  render_index (_get_render_index first_k self (RenderStr "last")).1 = Some [(-1)%Z]
  ∧ render_index (_get_render_index first_k self (RenderStr "last")).1 ≠ Some [(n self - 1)%Z].
Proof. cbv zeta. split; [reflexivity | discriminate]. Qed.

Lemma render_last_is_minus_one_witness :
  render (set_render_index (manager_of [fresh; fresh; fresh]) [(-1)%Z])
  = (set_render_index (manager_of [fresh; fresh; fresh]) [(-1)%Z], Ok ()).
Proof.
  pose proof (render_last_is_minus_one first_k (manager_of [fresh; fresh; fresh]))
    as Hlast. cbv zeta in Hlast. destruct Hlast as (_ & _ & Hslot).
  destruct Hslot as (_ & e & He & Hrender).
  - reflexivity.
  - cbn. lia.
  - cbn in He. injection He as <-. exact Hrender.
Defined.

Lemma render_random_out_of_range_is_silent_witness :
  _get_render_index first_k (manager_of (replicate 5 fresh)) (RenderStr "random_9")
  = (manager_of (replicate 5 fresh), Ok ()).
Proof.
  apply (render_random_out_of_range_is_silent first_k (manager_of (replicate 5 fresh))).
  cbn. lia.
Defined.

(** ** Python sequences: facts *)

Lemma py_slot_nat (len k : nat) :
  k < len → py_slot len (Z.of_nat k) = Some k.
Proof.
  intros Hk. unfold py_slot. rewrite bool_decide_eq_true_2 by lia.
  by rewrite Nat2Z.id.
Qed.

Lemma py_slot_nonneg (len : nat) (i : Z) (k : nat) :
  (0 ≤ i)%Z → py_slot len i = Some k → k = Z.to_nat i ∧ k < len.
Proof.
  intros Hi. unfold py_slot. case_bool_decide as Hin.
  - intros [= <-]. lia.
  - rewrite bool_decide_eq_false_2 by lia. discriminate.
Qed.

Lemma py_getitem_nat {A} (l : list A) (k : nat) (x : A) :
  l !! k = Some x → py_getitem l (Z.of_nat k) = Ok x.
Proof.
  intros Hx. unfold py_getitem.
  rewrite py_slot_nat by (by eapply lookup_lt_Some). cbn. by rewrite Hx.
Qed.

Lemma comprehension_Ok {A B} (f : A → result B) (l : list A) (ys : list B) :
  comprehension f l = Ok ys → Forall2 (λ x y, f x = Ok y) l ys.
Proof.
  revert ys. induction l as [|x l IH]; intros ys; cbn.
  - intros [= <-]. constructor.
  - destruct (f x) as [y|] eqn:Hy; cbn; [|discriminate].
    destruct (comprehension f l) as [ys'|]; cbn; [|discriminate].
    intros [= <-]. constructor; [exact Hy | by apply IH].
Qed.

Lemma comprehension_ext {A B} (f g : A → result B) (l : list A) :
  (∀ x, x ∈ l → f x = g x) → comprehension f l = comprehension g l.
Proof.
  induction l as [|x l IH]; intros Hfg; cbn; [reflexivity|].
  rewrite Hfg by left. rewrite IH; [reflexivity|].
  intros y Hy. apply Hfg. by right.
Qed.

Lemma comprehension_range {A} (f : Z → result A) (g : nat → A) (a len : nat) :
  (∀ k, a ≤ k < a + len → f (Z.of_nat k) = Ok (g k)) →
  comprehension f (Z.of_nat <$> seq a len) = Ok (g <$> seq a len).
Proof.
  revert a. induction len as [|len IH]; intros a Hf; cbn; [reflexivity|].
  rewrite Hf by lia. cbn. rewrite IH; [reflexivity|].
  intros k Hk. apply Hf. lia.
Qed.

Lemma range_nat (len : nat) : range (Z.of_nat len) = Z.of_nat <$> seq 0 len.
Proof. unfold range. by rewrite Nat2Z.id. Qed.

(** ** numpy helpers: facts *)

Lemma elem_of_where_from (k : Z) (done : list bool) (z : Z) :
  z ∈ where_from k done ↔ (k ≤ z)%Z ∧ done !! Z.to_nat (z - k) = Some true.
Proof.
  revert k. induction done as [|b done IH]; intros k; cbn.
  - split; [by intros ?%elem_of_nil | by intros [_ ?]].
  - assert (Hstep : (k < z)%Z → Z.to_nat (z - k) = S (Z.to_nat (z - (k + 1)))) by lia.
    destruct b.
    + rewrite elem_of_cons, IH. split.
      * intros [->|[Hle Hz]]; [by rewrite Z.sub_diag|].
        split; [lia|]. by rewrite Hstep by lia.
      * intros [Hle Hz]. destruct (decide (z = k)) as [->|Hne]; [by left|].
        right. split; [lia|]. by rewrite Hstep in Hz by lia.
    + rewrite IH. split.
      * intros [Hle Hz]. split; [lia|]. by rewrite Hstep by lia.
      * intros [Hle Hz]. destruct (decide (z = k)) as [->|Hne].
        { by rewrite Z.sub_diag in Hz. }
        split; [lia|]. by rewrite Hstep in Hz by lia.
Qed.

Lemma where_from_sorted (k : Z) (done : list bool) :
  StronglySorted Z.lt (where_from k done).
Proof.
  revert k. induction done as [|b done IH]; intros k; cbn; [constructor|].
  destruct b; [|apply IH].
  constructor; [apply IH|].
  apply Forall_forall. intros z Hz%elem_of_where_from. lia.
Qed.

Lemma elem_of_np_where (done : list bool) (z : Z) :
  z ∈ np_where done ↔ (0 ≤ z)%Z ∧ done !! Z.to_nat z = Some true.
Proof. unfold np_where. by rewrite elem_of_where_from, Z.sub_0_r. Qed.

(** ** Batched operations: facts *)

Section ManagerFacts.
Context {E : Type} `{Environment E}.
Implicit Types (self : gym_envs E) (es : list E).

Lemma get_result_run_None {R} (outcome : result R) :
  get_result (run outcome) = None ↔ raises outcome.
Proof.
  destruct outcome as [r|e]; cbn; split; try done.
  - intros [e' [=]].
  - intros _. by exists e.
Qed.

Lemma start_join_length {R} (pool : list (task R)) es :
  length (start_join pool es).1 = length es
  ∧ length (start_join pool es).2 = length pool.
Proof.
  revert es. induction pool as [|[k f] pool IH]; intros es; cbn; [done|].
  destruct (es !! k) as [e|].
  - destruct (f e) as [e' outcome].
    specialize (IH (<[k := e']> es)).
    destruct (start_join pool (<[k := e']> es)) as [es' ths]. cbn in *.
    rewrite length_insert in IH. lia.
  - specialize (IH es). destruct (start_join pool es) as [es' ths]. cbn in *. lia.
Qed.

(** When the tasks address the slots in order, one task per slot, each
    thread meets its environment as it was before the call. *)
Lemma start_join_in_order {R} (pool : list (task R)) (pre es : list E) :
  pool.*1 = seq (length pre) (length es) →
  start_join pool (pre ++ es)
  = (pre ++ zip_with (λ t e, (t.2 e).1) pool es,
     zip_with (λ t e, run (t.2 e).2) pool es).
Proof.
  revert pre es. induction pool as [|[k f] pool IH]; intros pre es Hslots.
  - destruct es; [|discriminate]. reflexivity.
  - destruct es as [|e es]; [discriminate|].
    cbn in Hslots. injection Hslots as -> Hrest.
    cbn. rewrite list_lookup_middle by done.
    destruct (f e) as [e' outcome] eqn:Hf.
    replace (<[length pre := e']> (pre ++ e :: es)) with ((pre ++ [e']) ++ es).
    2:{ rewrite <- (Nat.add_0_r (length pre)), insert_app_r. cbn.
        by rewrite <- app_assoc. }
    rewrite IH by (by rewrite length_app, Nat.add_1_r).
    by rewrite <- app_assoc.
Qed.

Lemma start_join_lookup {R} (pool : list (task R)) es (k k' : nat) f e :
  pool.*1 = seq 0 (length es) →
  pool !! k = Some (k', f) → es !! k = Some e →
  (start_join pool es).1 !! k = Some (f e).1
  ∧ (start_join pool es).2 !! k = Some (run (f e).2).
Proof.
  intros Hslots Hpool He.
  pose proof (start_join_in_order pool [] es Hslots) as Heq.
  change ([] ++ es) with es in Heq. rewrite Heq. cbn.
  unfold task in *. rewrite !lookup_zip_with, Hpool. cbn. by rewrite He.
Qed.

Lemma collect_from {R} (pre suf : list (attribute R)) :
  comprehension (λ i, get_result <$> py_getitem (pre ++ suf) i)
                (Z.of_nat <$> seq (length pre) (length suf))
  = Ok (get_result <$> suf).
Proof.
  revert pre. induction suf as [|th suf IH]; intros pre; [reflexivity|].
  cbn. rewrite (py_getitem_nat _ _ th) by (by apply list_lookup_middle). cbn.
  replace (pre ++ th :: suf) with ((pre ++ [th]) ++ suf) by (by rewrite <- app_assoc).
  replace (S (length pre)) with (length (pre ++ [th])) by (rewrite length_app; cbn; lia).
  by rewrite IH.
Qed.

Lemma collect_all {R} (ths : list (attribute R)) :
  collect ths (Z.of_nat (length ths)) = Ok (get_result <$> ths).
Proof. unfold collect. rewrite range_nat. apply (collect_from [] ths). Qed.

Lemma transpose4_None {A B C D} (results : list (option (A * B * C * D))) (k : nat) :
  results !! k = Some None → transpose4 results = Raise TypeError.
Proof.
  revert k. induction results as [|[[[[a b] c] d]|] results IH]; intros k Hk.
  - discriminate.
  - destruct k as [|k]; [discriminate|]. cbn. by rewrite (IH k Hk).
  - reflexivity.
Qed.

Lemma unzip4_done {A B C D} (results : list (option (A * B * C * D))) la lb lc ld :
  unzip4 results = Ok (la, lb, lc, ld) →
  length lc = length results.
Proof.
  unfold unzip4. intros Hunzip.
  assert (Ht : transpose4 results = Ok (la, lb, lc, ld)).
  { destruct (transpose4 results) as [channels|]; [|discriminate].
    cbn in Hunzip. destruct results; [discriminate|]. congruence. }
  clear Hunzip. revert la lb lc ld Ht.
  induction results as [|[[[[a b] c] d]|] results IH]; intros la lb lc ld; cbn.
  - by intros [= <- <- <- <-].
  - destruct (transpose4 results) as [[[[la' lb'] lc'] ld']|]; [|discriminate].
    cbn. intros [= <- <- <- <-]. cbn. f_equal. by eapply IH.
  - discriminate.
Qed.

(** The slots of a pool built over non-negative indices are those indices. *)
Lemma pool_slots {R} (F : Z → result (task (E:=E) R)) (indices : list Z) (pool : list (task R)) :
  (∀ i t, i ∈ indices → F i = Ok t → t.1 = Z.to_nat i) →
  comprehension F indices = Ok pool →
  pool.*1 = Z.to_nat <$> indices.
Proof.
  revert pool. induction indices as [|i indices IH]; intros pool HF; cbn.
  - by intros [= <-].
  - destruct (F i) as [t|] eqn:Ht; cbn; [|discriminate].
    destruct (comprehension F indices) as [pool'|]; cbn; [|discriminate].
    intros [= <-]. cbn. f_equal.
    + apply HF; [by left | exact Ht].
    + apply IH; [|reflexivity]. intros i' t' Hi'. apply HF. by right.
Qed.

Lemma elem_of_range (count i : Z) : i ∈ range count → (0 ≤ i < count)%Z.
Proof.
  unfold range. intros (k & -> & Hk%elem_of_seq)%list_elem_of_fmap. lia.
Qed.

Lemma env_at_nonneg self (i : Z) (k : nat) :
  (0 ≤ i)%Z → env_at self i = Ok k → k = Z.to_nat i ∧ k < length (envs self).
Proof.
  intros Hi. unfold env_at.
  destruct (py_slot (length (envs self)) i) as [k'|] eqn:Hslot; [|discriminate].
  intros [= <-]. by apply py_slot_nonneg.
Qed.

Lemma to_nat_range (count : nat) : Z.to_nat <$> (Z.of_nat <$> seq 0 count) = seq 0 count.
Proof.
  rewrite <- list_fmap_compose. rewrite <- (list_fmap_id (seq 0 count)) at 2.
  apply list_fmap_ext. intros _ k _. cbn. lia.
Qed.

Lemma fst_constant_tasks {R} (f : E → E * result R) (slots : list nat) :
  ((λ k, (k, f)) <$> slots).*1 = slots.
Proof. induction slots as [|k slots IH]; [reflexivity | cbn; f_equal; exact IH]. Qed.

Lemma zip_with_constant_tasks {R X} (f : E → E * result R) (g : E * result R → X)
  es (a : nat) :
  zip_with (λ (t : task R) e, g (t.2 e)) ((λ k, (k, f)) <$> seq a (length es)) es
  = (λ e, g (f e)) <$> es.
Proof.
  revert a. induction es as [|e es IH]; intros a; [reflexivity|].
  cbn. f_equal. apply IH.
Qed.

Lemma reset_pool_range self :
  reset_pool self (range (Z.of_nat (length (envs self))))
  = Ok ((λ k, (k, env_reset)) <$> seq 0 (length (envs self))).
Proof.
  unfold reset_pool. rewrite range_nat. apply comprehension_range. intros k Hk.
  unfold env_at. by rewrite py_slot_nat by lia.
Qed.

(** [reset] on a well-formed manager, in closed form. *)
Lemma reset_spec self :
  well_formed self →
  reset self
  = (set_envs (set_dones_index self (PyList [])) ((λ e, (env_reset e).1) <$> envs self),
     Ok ((λ e, get_result (run (env_reset e).2)) <$> envs self)).
Proof.
  intros Hwf. unfold well_formed in Hwf. unfold reset. cbv zeta.
  set (self0 := set_dones_index self (PyList [])).
  assert (Hn : n self0 = Z.of_nat (length (envs self0))) by (symmetry; exact Hwf).
  rewrite Hn, (reset_pool_range self0).
  change (envs self0) with ([] ++ envs self).
  rewrite start_join_in_order.
  2:{ exact (fst_constant_tasks env_reset (seq 0 (length (envs self)))). }
  cbn [app].
  pose proof (zip_with_constant_tasks env_reset (λ p, run p.2) (envs self) 0) as Hths.
  pose proof (zip_with_constant_tasks env_reset (λ p, p.1) (envs self) 0) as Hes.
  cbv beta in Hths, Hes. unfold task in *. rewrite Hths, Hes. f_equal.
  replace (length (envs self)) with (length ((λ e, run (env_reset e).2) <$> envs self))
    by apply length_fmap.
  rewrite collect_all. by rewrite <- list_fmap_compose.
Qed.
Lemma step_pool_slots self actions pool :
  step_pool self actions = Ok pool → pool.*1 = seq 0 (Z.to_nat (n self)).
Proof.
  unfold step_pool. destruct (reshape_actions _ _ _) as [acts|]; [|discriminate].
  cbn. intros Hpool. rewrite <- to_nat_range. revert Hpool. apply pool_slots.
  intros i t Hi%elem_of_range.
  destruct (env_at self i) as [k|] eqn:Hk; [|discriminate]. cbn.
  destruct (py_getitem acts i) as [a|]; [|discriminate]. cbn.
  intros [= <-]. cbn. destruct (env_at_nonneg self i k) as [-> _]; [lia | done | done].
Qed.

(** C9: when [step] returns, [dones_index] is the array of the
    positions at which the returned [done] batch is true - those
    positions and no others -, in strictly ascending order, with one
    [done] flag per slot; and the whole outcome of the call is the same
    whatever [dones_index] held (or did not hold) before the call. *)
Theorem step_recomputes_dones_index self actions self' observations reward done infos :
  step self actions = (self', Ok (observations, reward, done, infos)) →
  dones_index self' = Some (NdArray (np_where done))
  ∧ (∀ z, z ∈ np_where done ↔ (0 ≤ z)%Z ∧ done !! Z.to_nat z = Some true)
  ∧ StronglySorted Z.lt (np_where done)
  ∧ length done = Z.to_nat (n self)
  ∧ ∀ prev, step (with_dones_index self prev) actions
            = (self', Ok (observations, reward, done, infos)).
Proof.
  intros Hstep. unfold step in Hstep.
  destruct (step_pool self actions) as [pool|] eqn:Hpool; [|by inversion Hstep].
  destruct (start_join pool (envs self)) as [es ths] eqn:Hjoin.
  destruct (collect ths (n (set_envs self es)) ≫= _) as [[[[o r] d] i]|] eqn:Hout;
    [|by inversion Hstep].
  injection Hstep as <- <- <- <- <-.
  split; [reflexivity|]. split; [apply elem_of_np_where|].
  split; [apply where_from_sorted|]. split.
  - destruct (collect ths (n (set_envs self es))) as [results|] eqn:Hresults; [|discriminate].
    cbn in Hout. apply unzip4_done in Hout as ->.
    apply comprehension_Ok, Forall2_length in Hresults. rewrite <- Hresults.
    unfold range. by rewrite length_fmap, length_seq.
  - intros prev. unfold step.
    change (step_pool (with_dones_index self prev) actions) with (step_pool self actions).
    rewrite Hpool.
    change (envs (with_dones_index self prev)) with (envs self). rewrite Hjoin.
    change (n (set_envs (with_dones_index self prev) es)) with (n (set_envs self es)).
    by rewrite Hout.
Qed.

Lemma step_raises_on_failed_slot self actions pool (k k' : nat) f e :
  well_formed self →
  step_pool self actions = Ok pool → pool !! k = Some (k', f) → envs self !! k = Some e →
  raises (f e).2 →
  (step self actions).2 = Raise TypeError.
Proof.
  intros Hwf Hpool Hk He [x Hx]. unfold well_formed in Hwf.
  pose proof (step_pool_slots self actions pool Hpool) as Hslots.
  rewrite <- Hwf, Nat2Z.id in Hslots.
  destruct (start_join_lookup pool (envs self) k k' f e Hslots Hk He) as [_ Hth].
  pose proof (start_join_length pool (envs self)) as [_ Hlen].
  unfold step. rewrite Hpool.
  destruct (start_join pool (envs self)) as [es ths]. cbn in Hth, Hlen.
  assert (Hcount : n (set_envs self es) = Z.of_nat (length ths)).
  { pose proof (f_equal length Hslots) as Hpool_len.
    rewrite length_fmap, length_seq in Hpool_len.
    cbn. rewrite <- Hwf. f_equal. transitivity (length pool); [symmetry; exact Hpool_len|].
    symmetry. exact Hlen. }
  rewrite Hcount, collect_all. cbn.
  unfold unzip4. rewrite (transpose4_None _ k); [reflexivity|].
  by rewrite list_lookup_fmap, Hth, Hx.
Qed.

(** C1 (amended): on a manager with its N instances, [reset] never
    fails because of an instance: it returns N values, and the value of
    a slot whose reset task raised is the placeholder [None] (the value
    of any other slot is what its task returned); [step] does fail as a
    whole when the task of some slot raises, with the [TypeError] of
    unzipping a [None], not with the instance's own exception. *)
Theorem failed_slot_is_None_in_reset_and_TypeError_in_step self :
  well_formed self →
  (∃ self' batch,
      reset self = (self', Ok batch)
      ∧ length batch = length (envs self)
      ∧ ∀ k e, envs self !! k = Some e →
          batch !! k = Some (match (env_reset e).2 with
                             | Ok observation => Some observation
                             | Raise _ => None
                             end))
  ∧ ∀ actions pool (k k' : nat) f e,
      step_pool self actions = Ok pool → pool !! k = Some (k', f) →
      envs self !! k = Some e → raises (f e).2 →
      (step self actions).2 = Raise TypeError.
Proof.
  intros Hwf. split.
  - eexists _, _. split; [exact (reset_spec self Hwf)|].
    split; [by rewrite length_fmap|].
    intros k e He. rewrite list_lookup_fmap, He. cbn.
    by destruct (env_reset e).2.
  - intros actions pool k k' f e. by apply step_raises_on_failed_slot.
Qed.

Lemma reset_pool_same_length self self' (indices : list Z) :
  length (envs self') = length (envs self) →
  reset_pool self' indices = reset_pool self indices.
Proof.
  intros Hlen. unfold reset_pool. apply comprehension_ext. intros i _.
  unfold env_at. by rewrite Hlen.
Qed.

Lemma reset_pool_length self (indices : list Z) pool :
  reset_pool self indices = Ok pool → length pool = length indices.
Proof. intros Hpool%comprehension_Ok. symmetry. by eapply Forall2_length. Qed.

(** With an empty numpy array in [dones_index], as [step] leaves it when
    no slot is done, [partial_reset] touches nothing and returns the
    empty batch. *)
Lemma partial_reset_empty_array self :
  dones_index self = Some (NdArray []) → partial_reset self = (self, Ok []).
Proof.
  intros Hdones. unfold partial_reset. rewrite Hdones. cbn.
  by destruct self.
Qed.

(** C3 (amended): [partial_reset] leaves [dones_index] as it is, so a
    call that returned is followed, without a [step] in between, by a
    call that returns too, builds the same pool of reset tasks over the
    same slots, runs it once more on the instances, and returns a batch
    of the same size, the size of [dones_index]; it is the empty batch
    only if [dones_index] is empty. *)
Theorem partial_reset_again_repeats self self1 batch1 :
  partial_reset self = (self1, Ok batch1) →
  ∃ items pool self2 batch2,
    dones_index self = Some (NdArray items)
    ∧ dones_index self1 = Some (NdArray items)
    ∧ length batch1 = length items
    ∧ reset_pool self items = Ok pool
    ∧ envs self1 = (start_join pool (envs self)).1
    ∧ partial_reset self1 = (self2, Ok batch2)
    ∧ envs self2 = (start_join pool (envs self1)).1
    ∧ dones_index self2 = Some (NdArray items)
    ∧ length batch2 = length items.
Proof.
  unfold partial_reset at 1.
  destruct (dones_index self) as [[items|items]|] eqn:Hdones; [| |discriminate].
  { cbn [dones_items dones_shape0]. destruct (reset_pool self items); [|discriminate].
    destruct (start_join _ _). discriminate. }
  cbn [dones_items dones_shape0].
  destruct (reset_pool self items) as [pool|] eqn:Hpool; [|discriminate].
  pose proof (reset_pool_length self items pool Hpool) as Hpool_len.
  pose proof (start_join_length pool (envs self)) as [Hes Hths].
  destruct (start_join pool (envs self)) as [es ths] eqn:Hjoin. cbn in Hes, Hths.
  cbn -[collect]. rewrite <- Hpool_len, <- Hths, collect_all.
  intros [= <- <-].
  pose proof (start_join_length pool es) as [Hes2 Hths2].
  destruct (start_join pool es) as [es2 ths2] eqn:Hjoin2. cbn in Hes2, Hths2.
  exists items, pool, (set_envs (set_envs self es) es2), (get_result <$> ths2).
  split; [reflexivity|]. split; [exact Hdones|].
  split; [by rewrite length_fmap, Hths|]. split; [exact Hpool|].
  split; [by rewrite Hjoin|]. split; [|split; [|split]].
  - unfold partial_reset. cbn [dones_index set_envs]. rewrite Hdones.
    cbn [dones_items dones_shape0].
    rewrite (reset_pool_same_length self (set_envs self es)) by exact Hes.
    rewrite Hpool. cbn [envs set_envs]. rewrite Hjoin2.
    cbn -[collect]. by rewrite <- Hpool_len, <- Hths2, collect_all.
  - cbn. by rewrite Hjoin2.
  - exact Hdones.
  - by rewrite length_fmap, Hths2.
Qed.

(** C4 (as the code behaves): [reset] stores the Python list [[]] in
    [dones_index], and [partial_reset] asks it for [.shape], which a
    list does not have: called right after [reset], whether that
    [reset] returned or raised, [partial_reset] raises
    [AttributeError] and returns no batch. *)
Theorem partial_reset_after_reset_raises self :
  partial_reset (reset self).1 = ((reset self).1, Raise (AttributeError "shape")).
Proof.
  unfold reset. cbv zeta.
  destruct (reset_pool _ _) as [pool|].
  - destruct (start_join pool _) as [es ths]. reflexivity.
  - reflexivity.
Qed.
End ManagerFacts.

(** ** The stub manager at work *)

(** C1 (refuted as stated): the reset task of slot 1 raises, yet
    [reset] returns normally, with [None] standing in slot 1. *)
Lemma reset_substitutes_None_for_failed_slot :
  raises (env_reset faulty).2
  ∧ (reset (manager_of [fresh; faulty])).2 = Ok [Some 0; None].
Proof. split; [by eexists | reflexivity]. Qed.

Lemma failed_slot_is_None_in_reset_and_TypeError_in_step_witness :
  well_formed (manager_of [fresh; faulty])
  ∧ (step (manager_of [fresh; faulty]) (Arr1 [0; 1]%Z)).2 = Raise TypeError.
Proof.
  assert (Hwf : well_formed (manager_of [fresh; faulty])) by reflexivity.
  split; [exact Hwf|].
  destruct (failed_slot_is_None_in_reset_and_TypeError_in_step _ Hwf) as [_ Hstep].
  eapply (Hstep (Arr1 [0; 1]%Z) _ 1 1 _ faulty);
    [reflexivity | reflexivity | reflexivity | eexists; reflexivity].
Defined.

(** C3 (refuted as stated): with both slots done, a first
    [partial_reset] returns two observations, and so does a second one
    right after it, which resets both instances again. *)
Lemma partial_reset_again_is_not_a_noop :
  let self1 := (partial_reset both_done).1 in
  partial_reset both_done = (self1, Ok [Some 0; Some 0])
  ∧ (partial_reset self1).2 = Ok [Some 0; Some 0]
  ∧ (partial_reset self1).2 ≠ Ok []
  ∧ resets <$> envs self1 = [2; 2]
  ∧ resets <$> envs (partial_reset self1).1 = [3; 3].
Proof. cbv zeta. repeat (split; [reflexivity|]). split; [discriminate | split; reflexivity]. Qed.

Lemma partial_reset_again_repeats_witness :
  ∃ self2 batch2,
    partial_reset (partial_reset both_done).1 = (self2, Ok batch2) ∧ length batch2 = 2.
Proof.
  assert (Hfirst : partial_reset both_done
                   = ((partial_reset both_done).1, Ok [Some 0; Some 0])) by reflexivity.
  destruct (partial_reset_again_repeats _ _ _ Hfirst)
    as (items & pool & self2 & batch2 & _ & _ & Hlen1 & _ & _ & Hagain & _ & _ & Hlen2).
  exists self2, batch2. split; [exact Hagain|].
  rewrite Hlen2, <- Hlen1. reflexivity.
Defined.

Lemma step_recomputes_dones_index_witness :
  dones_index (step stepped_once (Arr1 [1; 0]%Z)).1 = Some (NdArray [0; 1]%Z).
Proof.
  assert (Hstep : step stepped_once (Arr1 [1; 0]%Z)
                  = ((step stepped_once (Arr1 [1; 0]%Z)).1,
                     Ok ([2; 2], [1; 1]%Z, [true; true], [(); ()]))) by reflexivity.
  exact (proj1 (step_recomputes_dones_index _ _ _ _ _ _ _ Hstep)).
Defined.

(** Slots 1 and 3 report done: [partial_reset] returns two observations
    and resets those two instances only. *)
Example partial_reset_of_slots_1_and_3 :
  let stepped := (step staggered (Arr1 [0; 0; 0; 0]%Z)).1 in
  dones_index stepped = Some (NdArray [1; 3]%Z)
  ∧ (partial_reset stepped).2 = Ok [Some 0; Some 0]
  ∧ age <$> envs (partial_reset stepped).1 = [1; 0; 1; 0].
Proof. cbv zeta. repeat split. Qed.

(** After a [step] in which no slot is done, [partial_reset] returns the
    empty batch; right after [reset] it raises. *)
Example partial_reset_on_empty :
  partial_reset stepped_once = (stepped_once, Ok [])
  ∧ (partial_reset (reset two_fresh).1).2 = Raise (AttributeError "shape").
Proof. split; reflexivity. Qed.

(** ["foo_3"] is none of the documented forms and is accepted in silence. *)
Example render_foo_3_is_silent :
  _get_render_index first_k two_fresh (RenderStr "foo_3") = (two_fresh, Ok ()).
Proof.
  apply (render_foreign_prefix_is_silent first_k two_fresh "foo" "3"); done.
Qed.

(** The list [[0, 2]] with five instances: [NameError], no [render_index]. *)
Example render_list_0_2 :
  _get_render_index first_k (manager_of (replicate 5 fresh)) (RenderList [PyInt 0; PyInt 2])
  = (manager_of (replicate 5 fresh), Raise (NameError "index")).
Proof. reflexivity. Qed.

(** A tuple of two discrete slots is turned away at the first assertion. *)
Example initialize_tuple_2_3 :
  (_initialize {| observation_space := Box [4%Z] () ();
                  action_space := Tuple [Discrete 2; Discrete 3];
                  spec_reward_threshold := Some 195%Z; closed := 0 |}).2
  = Raise (AssertionError msg_available_type).
Proof. reflexivity. Qed.

(** * Further properties of the code *)

(** ** Space classification: what a descriptor can be *)

Section DescriptorFacts.
Context {Bound Threshold : Type}.
Implicit Types (env : prototype Bound Threshold) (d : descriptor Bound Threshold).

Ltac classify env :=
  destruct env as [o a thr c]; unfold _initialize; cbn;
  destruct o as [oshape olow ohigh|on|oslots|]; cbn;
  destruct a as [ashape alow ahigh|an|aslots|]; cbn;
  repeat case_bool_decide; cbn.

(** X1: classification returns a descriptor exactly when the observation
    space is a [Box] or a [Discrete] and the action space is a
    [Discrete] or a [Box] of rank 1. *)
Theorem initialize_succeeds_iff env :
  (∃ d, (_initialize env).2 = Ok d)
  ↔ (match observation_space env with Box _ _ _ | Discrete _ => True | _ => False end)
    ∧ (match action_space env with
       | Discrete _ => True
       | Box shape _ _ => length shape = 1
       | _ => False
       end).
Proof.
  classify env;
    (split; [intros [d Hd]; first [discriminate Hd | done]
            |intros [Ho Ha]; first [done | eexists; reflexivity]]).
Qed.

(** X2: a descriptor that classification returned is continuous with
    the one-element shape of a [Box] action space as its dimensions, or
    discrete with the one count of a [Discrete] action space; it is
    never a tuple of discrete slots, and [_is_continuous] agrees with
    the kind. *)
Theorem initialize_action_is_continuous_or_discrete env d :
  (_initialize env).2 = Ok d →
  (action_type d = continuous ∧ _is_continuous d = true
   ∧ ∃ k low high, action_space env = Box [k] low high ∧ a_dim_or_list d = [k])
  ∨ (action_type d = discrete ∧ _is_continuous d = false
     ∧ ∃ k, action_space env = Discrete k ∧ a_dim_or_list d = [k]).
Proof.
  classify env; intros [= <-]; cbn;
    try (right; repeat split; eexists; split; reflexivity).
  all: left; repeat split;
    destruct ashape as [|k [|k' ashape]]; try done;
    exists k, alow, ahigh; split; reflexivity.
Qed.

(** X3: in a descriptor that classification returned, the observation
    is visual exactly when there is one visual source, exactly when the
    resolution has three entries; a visual descriptor has state
    dimension 0 and a vector one has no visual source and an empty
    resolution. *)
Theorem initialize_visual_fields_agree env d :
  (_initialize env).2 = Ok d →
  (obs_type d = visual ↔ visual_sources d = 1%Z)
  ∧ (obs_type d = visual ↔ length (visual_resolution d) = 3)
  ∧ (obs_type d = visual →
     s_dim d = 0%Z ∧ ∃ low high, observation_space env = Box (visual_resolution d) low high)
  ∧ (obs_type d = vector → visual_sources d = 0%Z ∧ visual_resolution d = []).
Proof.
  classify env; intros [= <-]; cbn; repeat split; try done;
    try (destruct oshape as [|k1 [|k2 [|k3 [|k4 oshape]]]]; done).
  all: by exists olow, ohigh.
Qed.

(** X4: a [Box] observation space whose rank is neither 1 nor 3 - a
    matrix, say - is not refused: it is classified as a vector
    observation of state dimension 0. *)
Theorem initialize_other_rank_is_empty_vector env d shape low high :
  observation_space env = Box shape low high →
  length shape ≠ 1 → length shape ≠ 3 →
  (_initialize env).2 = Ok d →
  obs_type d = vector ∧ s_dim d = 0%Z ∧ obs_bounds d = Some (high, low).
Proof.
  intros Hobs H1 H3. revert Hobs.
  classify env; intros [= -> -> ->]; try done; intros [= <-]; cbn;
    destruct shape as [|k1 [|k2 shape]]; done.
Qed.
End DescriptorFacts.

Lemma initialize_action_is_continuous_or_discrete_witness :
  ∃ d, (_initialize {| observation_space := Box [4%Z] () (); action_space := Box [2%Z] () ();
                       spec_reward_threshold := Some 195%Z; closed := 0 |}).2 = Ok d
       ∧ action_type d = continuous.
Proof.
  eexists. split; [reflexivity|].
  destruct (initialize_action_is_continuous_or_discrete
              {| observation_space := Box [4%Z] () (); action_space := Box [2%Z] () ();
                 spec_reward_threshold := Some 195%Z; closed := 0 |} _ eq_refl)
    as [[Hkind _]|[Hkind _]]; [exact Hkind | discriminate Hkind].
Defined.

Lemma initialize_visual_fields_agree_witness :
  ∃ d, (_initialize {| observation_space := Box [84; 84; 3]%Z () (); action_space := Discrete 4;
                       spec_reward_threshold := @None Z; closed := 0 |}).2 = Ok d
       ∧ (obs_type d = visual ↔ visual_sources d = 1%Z).
Proof.
  eexists. split; [reflexivity|].
  exact (proj1 (initialize_visual_fields_agree
                  {| observation_space := Box [84; 84; 3]%Z () (); action_space := Discrete 4;
                     spec_reward_threshold := @None Z; closed := 0 |} _ eq_refl)).
Defined.

Lemma initialize_other_rank_is_empty_vector_witness :
  ∃ d, (_initialize {| observation_space := Box [8; 8]%Z () (); action_space := Discrete 4;
                       spec_reward_threshold := @None Z; closed := 0 |}).2 = Ok d
       ∧ obs_type d = vector ∧ s_dim d = 0%Z.
Proof.
  eexists. split; [reflexivity|].
  destruct (initialize_other_rank_is_empty_vector
              {| observation_space := Box [8; 8]%Z () (); action_space := Discrete 4;
                 spec_reward_threshold := @None Z; closed := 0 |} _ [8; 8]%Z () ()
              eq_refl ltac:(discriminate) ltac:(discriminate) eq_refl) as (Hkind & Hdim & _).
  split; [exact Hkind | exact Hdim].
Defined.

(** ** Render-index resolution and rendering *)

Lemma split_length (sep : ascii) (s : string) :
  length (split sep s) = S (occurrences sep s).
Proof.
  induction s as [|c s IH]; [reflexivity|]. cbn [occurrences split].
  destruct (Ascii.eqb c sep); cbn; [by rewrite IH|].
  destruct (split sep s) as [|w ws]; [discriminate|]. exact IH.
Qed.

Lemma split_prefix (sep : ascii) (a b : string) :
  occurrences sep a = 0 → split sep (a +:+ String sep b) = a :: split sep b.
Proof.
  induction a as [|c a IH].
  - intros _. change ("" +:+ String sep b) with (String sep b).
    cbn [split]. by rewrite Ascii.eqb_refl.
  - change (String c a +:+ String sep b) with (String c (a +:+ String sep b)).
    cbn [occurrences split].
    destruct (Ascii.eqb c sep); [discriminate|]. intros Ha. by rewrite IH.
Qed.

Lemma split_whole (sep : ascii) (s : string) :
  occurrences sep s = 0 → split sep s = [s].
Proof.
  induction s as [|c s IH]; cbn [occurrences split]; [done|].
  destruct (Ascii.eqb c sep); [discriminate|]. intros Hs. by rewrite IH.
Qed.

Section RenderFacts.
Context {E : Type} `{Environment E}.
Variable random_sample : list Z → Z → list Z.
Implicit Types self : gym_envs E.

(** Resolution hands back the manager as it was, or the manager with a
    new [render_index] and no error. *)
Lemma resolution_cases self mode :
  (∃ r, _get_render_index random_sample self mode = (self, r))
  ∨ (∃ indices, _get_render_index random_sample self mode
                = (set_render_index self indices, Ok ())).
Proof.
  destruct mode as [items|s|]; cbn.
  - destruct (forallb isinstance_int items); left; eauto.
  - repeat match goal with
           | |- context [if ?c then _ else _] => destruct c
           | |- context [match ?l with [] => _ | _ :: _ => _ end] => destruct l
           | |- context [match ?r with Ok _ => _ | Raise _ => _ end] => destruct r
           end; eauto.
  - left. eauto.
Qed.

(** X5: resolution touches [render_index] only - the instance count,
    the instances, the action kind and [dones_index] are what they were
    - and a resolution that raises, or that returns without having
    recognised the string, leaves [render_index] as it was too. *)
Theorem render_resolution_changes_render_index_only self mode self' r :
  _get_render_index random_sample self mode = (self', r) →
  n self' = n self ∧ envs self' = envs self
  ∧ mgr_action_type self' = mgr_action_type self
  ∧ dones_index self' = dones_index self
  ∧ (render_index self' = render_index self → self' = self)
  ∧ (r ≠ Ok () → self' = self).
Proof.
  intros Hres.
  destruct (resolution_cases self mode) as [[r' Hsame]|[indices Hset]].
  - rewrite Hsame in Hres. by injection Hres as <- <-.
  - rewrite Hset in Hres. injection Hres as <- <-.
    repeat split; try done. destruct self as [n0 es kind ri di]. cbn.
    by intros [= <-].
Qed.

(** X6: a string other than ["first"], ["last"] and ["all"] that does
    not hold exactly one underscore makes resolution raise [ValueError]
    (the two-name unpacking of [split]); the manager is untouched. *)
Theorem render_string_without_one_underscore_raises self (s : string) :
  s ≠ "first" → s ≠ "last" → s ≠ "all" → occurrences "_" s ≠ 1 →
  _get_render_index random_sample self (RenderStr s) = (self, Raise ValueError).
Proof.
  intros Hfirst%String.eqb_neq Hlast%String.eqb_neq Hall%String.eqb_neq Hcount.
  unfold _get_render_index. rewrite Hfirst, Hlast, Hall.
  pose proof (split_length "_" s) as Hlen.
  destruct (split "_" s) as [|a [|b [|c pieces]]]; try reflexivity.
  cbn in Hlen. lia.
Qed.

(** X7: for an ASCII string ["random_K"]: with a decimal K in
    [1 .. N] resolution stores the draw of K indices from [0 .. N-1];
    with K read as 0, as a negative number or as more than N it stores
    nothing and returns all the same; with a K that [int] refuses it
    raises [ValueError]. *)
Theorem render_random_resolution self (b : string) :
  is_ascii b = true →
  occurrences "_" b = 0 →
  _get_render_index random_sample self (RenderStr ("random_" +:+ b))
  = match py_int b with
    | Raise e => (self, Raise e)
    | Ok k =>
        if bool_decide (0 < k ≤ n self)%Z
        then (set_render_index self (random_sample (range (n self)) k), Ok ())
        else (self, Ok ())
    end.
Proof.
  intros _ Hb.
  change ("random_" +:+ b) with ("random" +:+ String "_" b).
  unfold _get_render_index.
  change (("random" +:+ String "_" b =? "first")%string) with false.
  change (("random" +:+ String "_" b =? "last")%string) with false.
  change (("random" +:+ String "_" b =? "all")%string) with false.
  cbv iota. rewrite split_prefix by reflexivity. rewrite (split_whole _ b Hb).
  reflexivity.
Qed.

Lemma render_each_length (indices : list Z) (es : list E) :
  length (render_each indices es).1 = length es.
Proof.
  revert es. induction indices as [|i indices IH]; intros es; [reflexivity|]. cbn.
  destruct (py_slot (length es) i ≫= _) as [[k e]|]; [|reflexivity].
  destruct (env_render e) as [e' [u|x]]; cbn.
  - by rewrite IH, length_insert.
  - by rewrite length_insert.
Qed.

Lemma py_slot_is_Some (len : nat) (i : Z) :
  is_Some (py_slot len i) ↔ (- Z.of_nat len ≤ i < Z.of_nat len)%Z.
Proof.
  unfold py_slot. case_bool_decide as Hfront; [split; [lia | eauto]|].
  case_bool_decide as Hback; [split; [lia | eauto]|].
  split; [intros [k [=]] | lia].
Qed.

Lemma py_slot_bound (len : nat) (i : Z) (k : nat) : py_slot len i = Some k → k < len.
Proof.
  unfold py_slot. repeat case_bool_decide; intros [= <-]; lia.
Qed.

(** X8: with instances whose [render] never raises, [render()]
    returns exactly when every index of [render_index] lies in
    [-N .. N-1] for the N instances held, and raises [IndexError]
    otherwise. *)
Theorem render_returns_iff_indices_in_range self (indices : list Z) :
  render_index self = Some indices →
  (∀ e, (env_render e).2 = Ok ()) →
  ((render self).2 = Ok ()
   ↔ Forall (λ i, - Z.of_nat (length (envs self)) ≤ i < Z.of_nat (length (envs self)))%Z indices)
  ∧ ((render self).2 = Ok () ∨ (render self).2 = Raise IndexError).
Proof.
  intros Hindices Hrender. unfold render. rewrite Hindices.
  generalize (envs self) as es. clear Hindices.
  assert (Hgen : ∀ es,
    ((render_each indices es).2 = Ok ()
     ↔ Forall (λ i, - Z.of_nat (length es) ≤ i < Z.of_nat (length es))%Z indices)
    ∧ ((render_each indices es).2 = Ok () ∨ (render_each indices es).2 = Raise IndexError)).
  { induction indices as [|i indices IH]; intros es; cbn.
    - split; [split; [constructor | done] | by left].
    - destruct (py_slot (length es) i) as [k|] eqn:Hslot; cbn.
      + pose proof (py_slot_bound _ _ _ Hslot) as Hk.
        destruct (lookup_lt_is_Some_2 es k Hk) as [e He]. rewrite He. cbn.
        specialize (Hrender e). destruct (env_render e) as [e' r]. cbn in Hrender.
        subst r. specialize (IH (<[k := e']> es)). rewrite length_insert in IH.
        destruct IH as [IHiff IHor]. split; [|exact IHor].
        rewrite IHiff, Forall_cons. split; [|by intros [_ ?]].
        intros Hall. split; [|exact Hall]. apply py_slot_is_Some. eauto.
      + split; [|by right]. split; [discriminate|].
        intros [Hi%py_slot_is_Some _]%Forall_cons. rewrite Hslot in Hi.
        by destruct Hi. }
  intros es. specialize (Hgen es). destruct (render_each indices es) as [es' r]. exact Hgen.
Qed.

Lemma render_each_in_order (pre suf : list E) :
  (∀ e, e ∈ suf → (env_render e).2 = Ok ()) →
  render_each (Z.of_nat <$> seq (length pre) (length suf)) (pre ++ suf)
  = (pre ++ ((λ e, (env_render e).1) <$> suf), Ok ()).
Proof.
  revert pre. induction suf as [|e suf IH]; intros pre Hok; cbn.
  - by rewrite app_nil_r.
  - rewrite py_slot_nat by (rewrite length_app; cbn; lia). cbn.
    rewrite list_lookup_middle by done. cbn.
    pose proof (Hok e ltac:(left)) as He.
    destruct (env_render e) as [e' r] eqn:Hrender. cbn in He. subst r.
    replace (<[length pre := e']> (pre ++ e :: suf)) with ((pre ++ [e']) ++ suf).
    2:{ rewrite <- (Nat.add_0_r (length pre)), insert_app_r. cbn.
        by rewrite <- app_assoc. }
    replace (S (length pre)) with (length (pre ++ [e'])) by (rewrite length_app; cbn; lia).
    rewrite IH by (intros e0 He0; apply Hok; by right).
    by rewrite <- app_assoc.
Qed.

(** X9: after ["all"] has been resolved on a manager holding its N
    instances, [render_index] is [0, 1, ..., N-1] and [render()] calls
    [render] once on every instance, in slot order, and returns (given
    that no instance raises). *)
Theorem render_all_renders_every_instance self :
  well_formed self →
  (∀ e, e ∈ envs self → (env_render e).2 = Ok ()) →
  let self' := (_get_render_index random_sample self (RenderStr "all")).1 in
  render_index self' = Some (Z.of_nat <$> seq 0 (length (envs self)))
  ∧ render self' = (set_envs self' ((λ e, (env_render e).1) <$> envs self), Ok ()).
Proof.
  intros Hwf Hok. unfold well_formed in Hwf. cbn.
  rewrite <- Hwf, range_nat. split; [reflexivity|].
  unfold render. cbn.
  pose proof (render_each_in_order [] (envs self) Hok) as Heach. cbn in Heach.
  by rewrite Heach.
Qed.
End RenderFacts.

(** ** Batched operations: layout, bounds and alignment *)

Lemma comprehension_fmap {A B} (f : A → result B) (g : A → B) (l : list A) :
  (∀ x, x ∈ l → f x = Ok (g x)) → comprehension f l = Ok (g <$> l).
Proof.
  induction l as [|x l IH]; intros Hf; cbn; [reflexivity|].
  rewrite Hf by left. cbn. rewrite IH; [reflexivity|].
  intros y Hy. apply Hf. by right.
Qed.

Lemma comprehension_raises {A B} (f : A → result B) (l : list A) (x : exn) :
  (∀ i e, i ∈ l → f i = Raise e → e = x) →
  (∃ i e, i ∈ l ∧ f i = Raise e) →
  comprehension f l = Raise x.
Proof.
  induction l as [|i l IH]; intros Honly (j & e & Hj & He).
  - by apply elem_of_nil in Hj.
  - cbn. destruct (f i) as [y|e'] eqn:Hi; cbn.
    + rewrite IH; [reflexivity| |].
      * intros i' e' Hi'. apply Honly. by right.
      * apply elem_of_cons in Hj as [->|Hj]; [congruence|]. eauto.
    + f_equal. eapply Honly; [by left | exact Hi].
Qed.

Lemma py_slot_length (len : nat) : py_slot len (Z.of_nat len) = None.
Proof.
  unfold py_slot. rewrite bool_decide_eq_false_2 by lia.
  by rewrite bool_decide_eq_false_2 by lia.
Qed.

Lemma elem_of_range_2 (count i : Z) : (0 ≤ i < count)%Z → i ∈ range count.
Proof.
  intros Hi. unfold range. apply list_elem_of_fmap. exists (Z.to_nat i).
  split; [lia|]. apply elem_of_seq. lia.
Qed.

Section LayoutFacts.
Context {E : Type} `{Environment E}.
Implicit Types (self : gym_envs E) (es : list E).

(** X10: [reset], [step], [partial_reset] and [render], returning or
    raising, keep the instance count, the number of instances held, the
    action kind and [render_index]; [partial_reset] and [render] keep
    [dones_index] as well. A manager holding its N instances holds N
    instances after any of them. *)
Theorem batched_calls_keep_the_layout self (actions : ndarray scalar) :
  same_layout self (reset self).1
  ∧ same_layout self (step self actions).1
  ∧ (same_layout self (partial_reset self).1
     ∧ dones_index (partial_reset self).1 = dones_index self)
  ∧ (same_layout self (render self).1
     ∧ dones_index (render self).1 = dones_index self).
Proof.
  unfold same_layout. repeat apply conj.
  all: try (unfold reset; cbv zeta; destruct (reset_pool _ _) as [pool|]; [|done];
            pose proof (start_join_length pool (envs (set_dones_index self (PyList [])))) as [Hes _];
            destruct (start_join pool _) as [es ths]; done).
  all: try (unfold step; destruct (step_pool self actions) as [pool|]; [|done];
            pose proof (start_join_length pool (envs self)) as [Hes _];
            destruct (start_join pool (envs self)) as [es ths];
            destruct (collect ths _ ≫= _) as [[[[o r] d] i]|]; done).
  all: try (unfold partial_reset; destruct (dones_index self) as [d|] eqn:Hd; [|done];
            destruct (reset_pool self (dones_items d)) as [pool|]; [|done];
            pose proof (start_join_length pool (envs self)) as [Hes _];
            destruct (start_join pool (envs self)) as [es ths]; done).
  all: unfold render; destruct (render_index self) as [indices|] eqn:Hindices; [|done];
       pose proof (render_each_length indices (envs self)) as Hes;
       destruct (render_each indices (envs self)) as [es r]; done.
Qed.

(** X11: on a manager holding fewer instances than its count says,
    [reset] raises [IndexError] while it builds its threads: no
    instance is reset, and [dones_index] is already the empty list. *)
Theorem reset_with_missing_instances_raises self :
  (Z.of_nat (length (envs self)) < n self)%Z →
  reset self = (set_dones_index self (PyList []), Raise IndexError).
Proof.
  intros Hshort. unfold reset. cbv zeta.
  unfold reset_pool. rewrite (comprehension_raises _ _ IndexError); [reflexivity| |].
  - intros i e _. unfold env_at.
    destruct (py_slot _ i); cbn; [discriminate | by intros [= <-]].
  - exists (Z.of_nat (length (envs self))), IndexError. split.
    + apply elem_of_range_2. cbn. lia.
    + unfold env_at. cbn. by rewrite py_slot_length.
Qed.

(** X12: a manager whose instance count is zero (or negative) cannot
    step: whatever the action kind and the batch, [step] raises
    [ValueError] and leaves the manager as it was. *)
Theorem step_without_instances_raises self (actions : ndarray scalar) :
  (n self ≤ 0)%Z → step self actions = (self, Raise ValueError).
Proof.
  intros Hn. unfold step, step_pool.
  assert (Hrange : range (n self) = []).
  { unfold range. by replace (Z.to_nat (n self)) with 0 by lia. }
  assert (Hself : set_envs self (envs self) = self) by (by destruct self).
  destruct (mgr_action_type self) eqn:Hkind; cbn.
  - destruct actions; cbn; rewrite Hrange; cbn; unfold collect; rewrite Hrange; cbn;
      by rewrite Hself.
  - unfold reshape_rows. rewrite bool_decide_eq_false_2 by lia. reflexivity.
  - rewrite Hrange. cbn. unfold collect. rewrite Hrange. cbn. by rewrite Hself.
Qed.

(** X13: when the batch, once reshaped for the action kind, holds fewer
    actions than the instance count, [step] raises [IndexError] while
    it builds its threads: no instance is stepped and the manager,
    [dones_index] included, is as it was. *)
Theorem step_with_short_batch_raises self (actions : ndarray scalar) acts :
  reshape_actions (mgr_action_type self) (n self) actions = Ok acts →
  (Z.of_nat (length acts) < n self)%Z →
  step self actions = (self, Raise IndexError).
Proof.
  intros Hacts Hshort. unfold step, step_pool. rewrite Hacts. cbn.
  rewrite (comprehension_raises _ _ IndexError); [reflexivity| |].
  - intros i e _. unfold env_at, py_getitem.
    destruct (py_slot (length (envs self)) i); cbn; [|by intros [= <-]].
    destruct (py_slot (length acts) i ≫= _); cbn; [discriminate | by intros [= <-]].
  - destruct (env_at self (Z.of_nat (length acts))) as [k|e] eqn:Henv.
    + exists (Z.of_nat (length acts)), IndexError. split; [apply elem_of_range_2; lia|].
      rewrite Henv. cbn. unfold py_getitem. by rewrite py_slot_length.
    + exists (Z.of_nat (length acts)), e. split; [apply elem_of_range_2; lia|].
      by rewrite Henv.
Qed.

(** X14: a flat batch for discrete actions may be longer than the
    instance count: the actions beyond the first N are never read, and
    [step] does exactly what it does on the first N. *)
Theorem step_ignores_surplus_actions self (acts surplus : list scalar) :
  mgr_action_type self = discrete →
  (n self ≤ Z.of_nat (length acts))%Z →
  step self (Arr1 (acts ++ surplus)) = step self (Arr1 acts).
Proof.
  intros Hkind Hlen. unfold step.
  assert (Hpool : step_pool self (Arr1 (acts ++ surplus)) = step_pool self (Arr1 acts)).
  { unfold step_pool. rewrite Hkind. cbn. apply comprehension_ext.
    intros i Hi%elem_of_range.
    destruct (env_at self i) as [k|]; cbn; [|reflexivity].
    assert (Hitem : py_getitem (map AScalar (acts ++ surplus)) i = py_getitem (map AScalar acts) i).
    { unfold py_getitem, py_slot. rewrite !length_map, length_app.
      rewrite !bool_decide_eq_true_2 by lia. cbn.
      rewrite map_app. rewrite lookup_app_l; [reflexivity|].
      rewrite length_map. lia. }
    by rewrite Hitem. }
  by rewrite Hpool.
Qed.

(** X15: a [step] that raises leaves [dones_index] as it was before the
    call - the indices of an earlier step stay pending. *)
Theorem step_failure_keeps_dones_index self (actions : ndarray scalar) self' e :
  step self actions = (self', Raise e) → dones_index self' = dones_index self.
Proof.
  unfold step. destruct (step_pool self actions) as [pool|]; [|by intros [= <- _]].
  destruct (start_join pool (envs self)) as [es ths].
  destruct (collect ths _ ≫= _) as [[[[o r] d] i]|]; [discriminate|].
  by intros [= <- _].
Qed.
End LayoutFacts.

(** ** Batched operations: slot by slot *)

Lemma transpose4_Some {A B C D} (outs : list (A * B * C * D)) :
  transpose4 (Some <$> outs) = Ok (outs.*1.*1.*1, outs.*1.*1.*2, outs.*1.*2, outs.*2).
Proof.
  induction outs as [|[[[a b] c] d] outs IH]; [reflexivity|].
  cbn. cbn in IH. by rewrite IH.
Qed.

Lemma all_Some {A} (l : list (option A)) :
  (∀ k o, l !! k = Some o → is_Some o) → ∃ l', l = Some <$> l'.
Proof.
  induction l as [|o l IH]; intros Hall.
  - by exists [].
  - destruct (Hall 0 o eq_refl) as [x ->].
    destruct IH as [l' ->]; [intros k o' Hk; by apply (Hall (S k))|].
    by exists (x :: l').
Qed.

Lemma py_getitem_default {A} (l : list A) (k : nat) (dflt : A) :
  k < length l → py_getitem l (Z.of_nat k) = Ok (default dflt (l !! k)).
Proof.
  intros Hk. destruct (lookup_lt_is_Some_2 l k Hk) as [x Hx].
  rewrite Hx. by apply py_getitem_nat.
Qed.

Lemma lookup_map {A B} (f : A → B) (l : list A) (k : nat) :
  map f l !! k = f <$> l !! k.
Proof. revert k. induction l as [|x l IH]; intros [|k]; cbn; try done. Qed.

Lemma where_from_slots_NoDup (k : Z) (done : list bool) :
  (0 ≤ k)%Z → NoDup (Z.to_nat <$> where_from k done).
Proof.
  revert k. induction done as [|b done IH]; intros k Hk; cbn; [constructor|].
  destruct b; [|apply IH; lia]. cbn. constructor; [|apply IH; lia].
  intros (z & Hz & [Hle _]%elem_of_where_from)%list_elem_of_fmap. lia.
Qed.

Lemma elem_of_np_where_slots (done : list bool) (k : nat) :
  k ∈ Z.to_nat <$> np_where done ↔ done !! k = Some true.
Proof.
  rewrite list_elem_of_fmap. split.
  - intros (z & -> & [_ Hz]%elem_of_np_where). exact Hz.
  - intros Hk. exists (Z.of_nat k). split; [lia|].
    apply elem_of_np_where. split; [lia|]. by rewrite Nat2Z.id.
Qed.

Section SlotFacts.
Context {E : Type} `{Environment E}.
Implicit Types (self : gym_envs E) (es : list E).

(** With distinct slots, every thread meets its instance as it was
    before the call, and the instances of no thread are left alone. *)
Lemma start_join_distinct {R} (f : E → E * result R) (slots : list nat) es :
  NoDup slots →
  (∀ k, (start_join ((λ k, (k, f)) <$> slots) es).1 !! k
        = if decide (k ∈ slots) then (λ e, (f e).1) <$> es !! k else es !! k)
  ∧ (start_join ((λ k, (k, f)) <$> slots) es).2
    = (λ k, match es !! k with Some e => run (f e).2 | None => Unset end) <$> slots.
Proof.
  intros Hnodup. revert es.
  induction Hnodup as [|s slots Hs Hnodup IH]; intros es.
  - split; [intros k; by rewrite decide_False by apply not_elem_of_nil | reflexivity].
  - cbn. destruct (es !! s) as [e|] eqn:He.
    + destruct (f e) as [e' outcome] eqn:Hf.
      destruct (IH (<[s := e']> es)) as [IHes IHths].
      destruct (start_join _ (<[s := e']> es)) as [es' ths]. cbn in *. split.
      * intros k. rewrite IHes. destruct (decide (k = s)) as [->|Hne].
        { rewrite decide_False by done. rewrite decide_True by left.
          rewrite list_lookup_insert_eq by (by eapply lookup_lt_Some).
          rewrite He. cbn. by rewrite Hf. }
        rewrite list_lookup_insert_ne by done.
        destruct (decide (k ∈ slots)) as [Hin|Hout].
        { by rewrite decide_True by (by right). }
        rewrite decide_False; [done|]. by intros [->|?]%elem_of_cons.
      * f_equal. rewrite IHths. apply list_fmap_ext. intros i k Hk.
        rewrite list_lookup_insert_ne; [done|].
        intros Heq. apply Hs. rewrite Heq. by eapply list_elem_of_lookup_2.
    + destruct (IH es) as [IHes IHths].
      destruct (start_join _ es) as [es' ths]. cbn in *. split.
      * intros k. rewrite IHes. destruct (decide (k = s)) as [->|Hne].
        { rewrite decide_False by done. rewrite decide_True by left. by rewrite He. }
        destruct (decide (k ∈ slots)) as [Hin|Hout].
        { by rewrite decide_True by (by right). }
        rewrite decide_False; [done|]. by intros [->|?]%elem_of_cons.
      * by rewrite IHths.
Qed.

(** X16: [step] with discrete actions on a manager holding its N >= 1
    instances, given at least N actions each of which its instance
    accepts: the call returns, and slot k of every returned batch, and
    instance k afterwards, are what instance k made of action k - the
    batches are aligned with the slots. *)
Theorem step_discrete_is_slotwise self (actions : ndarray scalar) :
  well_formed self → mgr_action_type self = discrete → (1 ≤ n self)%Z →
  (n self ≤ Z.of_nat (length (flatten actions)))%Z →
  (∀ k e a, envs self !! k = Some e → flatten actions !! k = Some a →
            ∃ out, (env_step e (AScalar a)).2 = Ok out) →
  ∃ self' observations reward done infos,
    step self actions = (self', Ok (observations, reward, done, infos))
    ∧ ∀ k e a e' ob rw dn inf,
        envs self !! k = Some e → flatten actions !! k = Some a →
        env_step e (AScalar a) = (e', Ok (ob, rw, dn, inf)) →
        envs self' !! k = Some e' ∧ observations !! k = Some ob ∧ reward !! k = Some rw
        ∧ done !! k = Some dn ∧ infos !! k = Some inf.
Proof.
  intros Hwf Hkind Hn Hlen Haccept. unfold well_formed in Hwf.
  set (acts := map AScalar (flatten actions)).
  set (g := λ k : nat, (k, λ e : E, env_step e (default (ARow []) (acts !! k)))).
  assert (Hpool : step_pool self actions = Ok (g <$> seq 0 (length (envs self)))).
  { unfold step_pool. rewrite Hkind. cbn. fold acts.
    rewrite <- Hwf, range_nat. apply comprehension_range. intros k Hk.
    unfold env_at. rewrite py_slot_nat by lia. cbn.
    rewrite (py_getitem_default acts k (ARow [])); [reflexivity|].
    unfold acts. rewrite length_map. lia. }
  pose proof (step_pool_slots _ _ _ Hpool) as Hslots.
  rewrite <- Hwf, Nat2Z.id in Hslots.
  assert (Htask : ∀ k e a, envs self !! k = Some e → flatten actions !! k = Some a →
            (start_join (g <$> seq 0 (length (envs self))) (envs self)).1 !! k
              = Some (env_step e (AScalar a)).1
            ∧ (start_join (g <$> seq 0 (length (envs self))) (envs self)).2 !! k
              = Some (run (env_step e (AScalar a)).2)).
  { intros k e a He Ha.
    assert (Hk : k < length (envs self)) by (by eapply lookup_lt_Some).
    assert (Hact : acts !! k = Some (AScalar a)).
    { unfold acts. by rewrite lookup_map, Ha. }
    assert (Hg : (g <$> seq 0 (length (envs self))) !! k
                 = Some (k, λ e : E, env_step e (AScalar a))).
    { rewrite list_lookup_fmap, lookup_seq_lt by done. cbn. unfold g. by rewrite Hact. }
    exact (start_join_lookup _ _ k k _ e Hslots Hg He). }
  unfold step. rewrite Hpool.
  pose proof (start_join_length (g <$> seq 0 (length (envs self))) (envs self)) as [Hes Hths].
  destruct (start_join (g <$> seq 0 (length (envs self))) (envs self)) as [es ths].
  cbn in Htask, Hes, Hths. rewrite length_fmap, length_seq in Hths.
  assert (Hcount : n (set_envs self es) = Z.of_nat (length ths)) by (cbn; lia).
  rewrite Hcount, collect_all. cbn.
  assert (Hflat : ∀ k, k < length (envs self) → is_Some (flatten actions !! k)).
  { intros k Hk. apply lookup_lt_is_Some_2. lia. }
  destruct (all_Some (get_result <$> ths)) as [outs Houts].
  { intros k o. rewrite list_lookup_fmap.
    destruct (ths !! k) as [th|] eqn:Hth; [|discriminate]. intros [= <-].
    assert (Hk : k < length (envs self)).
    { rewrite <- Hths. by eapply lookup_lt_Some. }
    destruct (lookup_lt_is_Some_2 (envs self) k Hk) as [e He].
    destruct (Hflat k Hk) as [a Ha].
    destruct (Htask k e a He Ha) as [_ Hrun]. rewrite Hth in Hrun. injection Hrun as ->.
    destruct (Haccept k e a He Ha) as [out ->]. by eexists. }
  rewrite Houts. unfold unzip4. rewrite transpose4_Some. cbn.
  assert (Hne : outs ≠ []).
  { intros ->. apply (f_equal length) in Houts. rewrite length_fmap in Houts.
    cbn in Houts. lia. }
  destruct outs as [|out outs']; [done|]. cbn [fmap list_fmap].
  eexists _, _, _, _, _. split; [reflexivity|].
  intros k e a e' ob rw dn inf He Ha Hstep.
  destruct (Htask k e a He Ha) as [Hnew Hrun]. rewrite Hstep in Hnew, Hrun. cbn in Hnew, Hrun.
  assert (Hout : (out :: outs') !! k = Some (ob, rw, dn, inf)).
  { apply (f_equal (λ l, l !! k)) in Houts.
    rewrite !list_lookup_fmap, Hrun in Houts. cbn in Houts.
    destruct ((out :: outs') !! k); by inversion Houts. }
  split; [exact Hnew|].
  change ((out :: outs').*1.*1.*1 !! k = Some ob ∧ (out :: outs').*1.*1.*2 !! k = Some rw
          ∧ (out :: outs').*1.*2 !! k = Some dn ∧ (out :: outs').*2 !! k = Some inf).
  rewrite !list_lookup_fmap, Hout. done.
Qed.
End SlotFacts.

Lemma py_slot_in_range (len : nat) (z : Z) :
  (0 ≤ z < Z.of_nat len)%Z → py_slot len z = Some (Z.to_nat z).
Proof. intros Hz. unfold py_slot. by rewrite bool_decide_eq_true_2 by lia. Qed.

Section PartialResetFacts.
Context {E : Type} `{Environment E}.
Implicit Types (self : gym_envs E) (es : list E).

Lemma step_Ok_inv self (actions : ndarray scalar) self1 observations reward done infos :
  step self actions = (self1, Ok (observations, reward, done, infos)) →
  dones_index self1 = Some (NdArray (np_where done))
  ∧ length (envs self1) = length (envs self)
  ∧ length done = Z.to_nat (n self).
Proof.
  unfold step.
  destruct (step_pool self actions) as [pool|] eqn:Hpool; [|discriminate].
  pose proof (start_join_length pool (envs self)) as [Hes _].
  destruct (start_join pool (envs self)) as [es ths] eqn:Hjoin.
  destruct (collect ths (n (set_envs self es)) ≫= _) as [[[[o r] d] i]|] eqn:Hout;
    [|discriminate].
  intros [= <- <- <- <- <-]. split; [reflexivity|]. split; [exact Hes|].
  destruct (collect ths (n (set_envs self es))) as [results|] eqn:Hresults; [|discriminate].
  cbn in Hout. apply unzip4_done in Hout as ->.
  apply comprehension_Ok, Forall2_length in Hresults. rewrite <- Hresults.
  unfold range. by rewrite length_fmap, length_seq.
Qed.

(** X17: after a [step] that returned, on a manager holding its N
    instances, [partial_reset] returns: it resets the instances of the
    slots whose [done] flag is true and no other instance, and its
    batch holds, in ascending slot order, one value per done slot - the
    observation of that slot's reset, or [None] if that reset raised. *)
Theorem partial_reset_after_step_resets_done_slots_only
  self (actions : ndarray scalar) self1 observations reward done infos :
  well_formed self →
  step self actions = (self1, Ok (observations, reward, done, infos)) →
  ∃ self2 batch,
    partial_reset self1 = (self2, Ok batch)
    ∧ length batch = length (np_where done)
    ∧ (∀ k, done !! k = Some false → envs self2 !! k = envs self1 !! k)
    ∧ (∀ k e, done !! k = Some true → envs self1 !! k = Some e →
              envs self2 !! k = Some (env_reset e).1)
    ∧ (∀ j z e, np_where done !! j = Some z → envs self1 !! Z.to_nat z = Some e →
                batch !! j = Some (match (env_reset e).2 with
                                   | Ok observation => Some observation
                                   | Raise _ => None
                                   end)).
Proof.
  intros Hwf Hstep. unfold well_formed in Hwf.
  destruct (step_Ok_inv _ _ _ _ _ _ _ Hstep) as (Hdones & Hes1 & Hdone_len).
  set (slots := Z.to_nat <$> np_where done).
  assert (Hpool : reset_pool self1 (np_where done) = Ok ((λ k, (k, env_reset)) <$> slots)).
  { unfold reset_pool, slots. rewrite <- list_fmap_compose.
    apply comprehension_fmap. intros z [Hz Htrue%lookup_lt_Some]%elem_of_np_where.
    unfold env_at. rewrite py_slot_in_range; [reflexivity|]. lia. }
  destruct (start_join_distinct env_reset slots (envs self1)) as [Hnew Hths].
  { apply where_from_slots_NoDup. lia. }
  unfold partial_reset. rewrite Hdones. cbn [dones_items dones_shape0]. rewrite Hpool.
  destruct (start_join _ (envs self1)) as [es ths]. cbn in Hnew, Hths.
  assert (Hcount : Z.of_nat (length (np_where done)) = Z.of_nat (length ths)).
  { rewrite Hths. unfold slots. by rewrite !length_fmap. }
  cbn -[collect]. rewrite Hcount, collect_all.
  eexists _, _. split; [reflexivity|]. cbn. split; [|split; [|split]].
  - rewrite length_fmap. lia.
  - intros k Hk. rewrite Hnew. rewrite decide_False; [done|].
    intros Hin%elem_of_np_where_slots. congruence.
  - intros k e Hk He. rewrite Hnew.
    rewrite decide_True by (by apply elem_of_np_where_slots). by rewrite He.
  - intros j z e Hj He. rewrite Hths, !list_lookup_fmap. unfold slots.
    rewrite list_lookup_fmap, Hj. cbn. rewrite He. by destruct (env_reset e).2.
Qed.
End PartialResetFacts.

(** ** Calls on every instance *)

Section EachInstanceFacts.
Context {E A : Type}.
Implicit Types (method : E → E * result A) (es : list E).

Lemma call_each_returns method es :
  (∀ e, e ∈ es → ∃ a, (method e).2 = Ok a) →
  ∃ values,
    call_each method es = ((λ e, (method e).1) <$> es, Ok values)
    ∧ Forall2 (λ e a, (method e).2 = Ok a) es values.
Proof.
  induction es as [|e es IH]; intros Hok.
  - exists []. split; [reflexivity | constructor].
  - destruct (Hok e) as [a Ha]; [by left|].
    destruct IH as (values & Hcall & Hvalues); [intros e' He'; apply Hok; by right|].
    exists (a :: values). split; [|by constructor].
    cbn. destruct (method e) as [e' r]. cbn in Ha. subst r.
    by rewrite Hcall.
Qed.

Lemma call_each_stops method (called : list E) e (uncalled : list E) x :
  (∀ e', e' ∈ called → ∃ a, (method e').2 = Ok a) →
  (method e).2 = Raise x →
  call_each method (called ++ e :: uncalled)
  = (((λ e', (method e').1) <$> called) ++ (method e).1 :: uncalled, Raise x).
Proof.
  intros Hok Hraise. induction called as [|e0 called IH]; cbn.
  - destruct (method e) as [e' r]. cbn in Hraise. by subst r.
  - destruct (Hok e0) as [a Ha]; [by left|].
    destruct (method e0) as [e0' r]. cbn in Ha. subst r.
    rewrite IH by (intros e' He'; apply Hok; by right). reflexivity.
Qed.
End EachInstanceFacts.

Section CloseAndSampleFacts.
Context {E Act : Type}.
Variable env_close : E → E * result unit.
Variable env_action_sample : E → E * result Act.
Implicit Types self : gym_envs E.

(** X18: [close()] closes the instances in slot order and gives up at
    the first one whose [close] raises: that exception reaches the
    caller, the instances before it have been closed, and the instances
    after it have not been called at all - they stay open. *)
Theorem close_stops_at_first_failure self (closed_ones : list E) e (open_ones : list E) x :
  envs self = closed_ones ++ e :: open_ones →
  (∀ e', e' ∈ closed_ones → (env_close e').2 = Ok ()) →
  (env_close e).2 = Raise x →
  gym_envs_close env_close self
  = (set_envs self (((λ e', (env_close e').1) <$> closed_ones)
                    ++ (env_close e).1 :: open_ones),
     Raise x).
Proof.
  intros Henvs Hok Hraise. unfold gym_envs_close. rewrite Henvs.
  rewrite (call_each_stops env_close closed_ones e open_ones x); [reflexivity| |done].
  intros e' He'. exists (). by apply Hok.
Qed.

(** X19: when no instance raises on [close], [close()] returns after
    one [close] call on every instance; the manager keeps holding the
    closed instances, so a second [close()] calls [close] on each of
    them again. *)
Theorem close_closes_every_instance self :
  (∀ e, (env_close e).2 = Ok ()) →
  gym_envs_close env_close self
  = (set_envs self ((λ e, (env_close e).1) <$> envs self), Ok ())
  ∧ (gym_envs_close env_close (gym_envs_close env_close self).1).1
    = set_envs self ((λ e, (env_close (env_close e).1).1) <$> envs self).
Proof.
  intros Hok.
  assert (Hclose : ∀ self0 : gym_envs E, gym_envs_close env_close self0
            = (set_envs self0 ((λ e, (env_close e).1) <$> envs self0), Ok ())).
  { intros self0. unfold gym_envs_close.
    destruct (call_each_returns env_close (envs self0)) as (values & -> & _); [|reflexivity].
    intros e _. exists (). apply Hok. }
  split; [apply Hclose|]. rewrite !Hclose. cbn.
  by rewrite <- list_fmap_compose.
Qed.

(** X20: when every instance returns a sample, [sample_actions()]
    returns one action per instance, the k-th being the one instance k
    sampled, and each instance is left as its own sampling left it. *)
Theorem sample_actions_is_slotwise self :
  (∀ e, e ∈ envs self → ∃ a, (env_action_sample e).2 = Ok a) →
  ∃ actions,
    sample_actions env_action_sample self
    = (set_envs self ((λ e, (env_action_sample e).1) <$> envs self), Ok actions)
    ∧ length actions = length (envs self)
    ∧ ∀ k e, envs self !! k = Some e →
             ∃ a, actions !! k = Some a ∧ (env_action_sample e).2 = Ok a.
Proof.
  intros Hok. unfold sample_actions.
  destruct (call_each_returns env_action_sample (envs self) Hok) as (actions & -> & Hall).
  exists actions. split; [reflexivity|]. split; [symmetry; by eapply Forall2_length|].
  intros k e He.
  exact (Forall2_lookup_l _ _ _ _ _ Hall He).
Qed.
End CloseAndSampleFacts.

(** ** Construction of the manager *)

Section ConstructionFacts.
Context {E Bound Threshold : Type} `{Environment E}.
Variable gym_make : string → result E.
Variables BaseEnv SkipEnv ScaleEnv StackEnv OneHotObsEnv BoxActEnv : E → E.
Variable GrayResizeEnv : E → bool → bool → E.
Variables observation_space_of action_space_of : E → space Bound.
Variable reward_threshold_of : E → option Threshold.
Variable env_seed : E → Z → E * result unit.
Variable random_sample : list Z → Z → list Z.

Local Abbreviation family_env :=
  (get_env gym_make BaseEnv SkipEnv ScaleEnv StackEnv OneHotObsEnv BoxActEnv
     GrayResizeEnv observation_space_of action_space_of).
Local Abbreviation init :=
  (__init__ gym_make BaseEnv SkipEnv ScaleEnv StackEnv OneHotObsEnv BoxActEnv
     GrayResizeEnv observation_space_of action_space_of reward_threshold_of
     env_seed random_sample).

(** X21: the image options do nothing for an environment whose
    observation space, as seen through [BaseEnv] (and [SkipEnv]), is not
    a [Box] of rank 3: [grayscale], [resize] and [scale] are ignored;
    and when that space is not a [Box] at all, [stack] is ignored as
    well. *)
Theorem get_env_ignores_image_options
  (gym_env_name : string) (skip stack grayscale resize scale : bool) made :
  gym_make gym_env_name = Ok made →
  let seen := observation_space_of (if skip then SkipEnv (BaseEnv made) else BaseEnv made) in
  let make :=
    get_env gym_make BaseEnv SkipEnv ScaleEnv StackEnv OneHotObsEnv BoxActEnv
      GrayResizeEnv observation_space_of action_space_of gym_env_name skip in
  ((∀ shape low high, seen = Box shape low high → length shape ≠ 3) →
   make stack grayscale resize scale = make stack false false false)
  ∧ ((∀ shape low high, seen ≠ Box shape low high) →
     make stack grayscale resize scale = make false false false false).
Proof.
  intros Hmade seen make. unfold make, get_env. rewrite Hmade. cbn. fold seen.
  split; intros Hseen.
  - destruct seen as [shape low high| | |] eqn:Hobs; try reflexivity.
    rewrite bool_decide_eq_false_2 by (by eapply Hseen). reflexivity.
  - destruct seen as [shape low high| | |] eqn:Hobs; try reflexivity.
    by destruct (Hseen shape low high).
Qed.

Lemma seed_each_spec (es : list E) (seeds : list Z) es' :
  seed_each env_seed es seeds = (es', Ok ()) →
  length es' = length es
  ∧ ∀ k e s, es !! k = Some e → seeds !! k = Some s → es' !! k = Some (env_seed e s).1.
Proof.
  revert seeds es'. induction es as [|e es IH]; intros [|s seeds] es'; cbn.
  - intros [= <-]. split; [done | by intros []].
  - intros [= <-]. split; [done | by intros []].
  - intros [= <-]. split; [done | by intros [] ? ? ? ?].
  - destruct (env_seed e s) as [e1 [[]|x]] eqn:Hseed; [|discriminate].
    destruct (seed_each env_seed es seeds) as [es1 r] eqn:Hrest.
    intros [= <- ->]. destruct (IH seeds es1 Hrest) as [Hlen Hslot].
    split; [cbn; by rewrite Hlen|].
    intros [|k] e0 s0; cbn.
    + intros [= <-] [= <-]. by rewrite Hseed.
    + apply Hslot.
Qed.

Lemma comprehension_constant {A B} (r : result B) (l : list A) made :
  comprehension (λ _, r) l = Ok made → l = [] ∧ made = [] ∨ ∃ b, r = Ok b ∧ made = replicate (length l) b.
Proof.
  destruct l as [|x l]; cbn; [intros [= <-]; by left|].
  destruct r as [b|]; [|discriminate]. cbn. intros Hmade. right. exists b. split; [done|].
  revert made Hmade. induction l as [|y l IH]; intros made; cbn.
  - by intros [= <-].
  - destruct (comprehension (λ _, Ok b) l) as [made'|] eqn:Hrest; [|discriminate].
    cbn. intros [= <-]. f_equal. specialize (IH (b :: made') eq_refl).
    by injection IH.
Qed.

(** X22: a construction that returns has built a manager with the
    count it was given, holding [max(n, 0)] instances - its N instances
    when N >= 0 -, instance k being a fresh environment seeded with
    [seed + k]; [self.seeds] is [seed, seed + 1, ...]; the action kind
    is the descriptor's and is not a tuple; and [dones_index] does not
    exist yet, so a [partial_reset] before any [reset] or [step] raises
    [AttributeError]. *)
Theorem init_builds_seeded_instances
  (gym_env_name : string) (count seed : Z) (mode : render_mode) (kwargs : gmap string bool)
  self d seeds :
  init gym_env_name count seed mode kwargs = Ok (self, d, seeds) →
  n self = count
  ∧ length (envs self) = Z.to_nat count
  ∧ ((0 ≤ count)%Z → well_formed self)
  ∧ seeds = (λ i, seed + i)%Z <$> range count
  ∧ (∀ k, k < Z.to_nat count →
          ∃ made, family_env gym_env_name (flag kwargs "skip") (flag kwargs "stack")
                    (flag kwargs "grayscale") (flag kwargs "resize") (flag kwargs "scale")
                  = Ok made
                  ∧ envs self !! k = Some (env_seed made (seed + Z.of_nat k)).1)
  ∧ mgr_action_type self = action_type d
  ∧ action_type d ≠ tuple_discrete
  ∧ partial_reset self = (self, Raise (AttributeError "dones_index")).
Proof.
  unfold __init__. cbv zeta.
  destruct (family_env _ _ _ _ _ _) as [proto|] eqn:Hmake; [|discriminate]. cbn.
  destruct (_initialize _).2 as [d0|] eqn:Hinit; [|discriminate].
  cbn. destruct (comprehension _ (range count)) as [es|] eqn:Hes; [|discriminate]. cbn.
  destruct (seed_each env_seed es _) as [es1 [[]|x]] eqn:Hseed; [|discriminate]. cbn.
  match goal with
  | |- context [_get_render_index random_sample ?s mode] =>
      set (self0 := s);
      destruct (resolution_cases random_sample self0 mode) as [[r Hres]|[indices Hres]];
      rewrite Hres
  end.
  all: cbn; try (destruct r; [|discriminate]; cbn); intros [= <- <- <-].
  all: destruct (seed_each_spec _ _ _ Hseed) as [Hlen Hslot].
  all: assert (Hcount : length es = Z.to_nat count)
         by (apply comprehension_Ok, Forall2_length in Hes; rewrite <- Hes;
             unfold range; by rewrite length_fmap, length_seq).
  all: assert (Hkind : action_type d0 ≠ tuple_discrete)
         by (revert Hinit; unfold _initialize, as_prototype; cbn;
             destruct (observation_space_of proto), (action_space_of proto); cbn;
             repeat case_bool_decide; cbn; intros [= <-]; done).
  all: repeat split; try done; cbn; try lia.
  all: try (unfold well_formed; cbn; lia).
  all: intros k Hk; exists proto; split; [reflexivity|].
  all: apply comprehension_constant in Hes as [[Hrange _]|(made & [= <-] & ->)];
         [apply (f_equal length) in Hrange; unfold range in Hrange;
          rewrite length_fmap, length_seq in Hrange; cbn in Hrange; lia|].
  all: apply Hslot;
         [apply lookup_replicate_2; unfold range; rewrite length_fmap, length_seq; lia
         |unfold range; rewrite !list_lookup_fmap, lookup_seq_lt by lia; reflexivity].
Qed.

(** X23: a manager cannot be constructed with an explicit render list:
    whatever the list, the environment family and the options, the
    construction raises. *)
Theorem init_with_render_list_raises
  (gym_env_name : string) (count seed : Z) (items : list item) (kwargs : gmap string bool) :
  ∃ e, init gym_env_name count seed (RenderList items) kwargs = Raise e.
Proof.
  unfold __init__. cbv zeta.
  destruct (family_env _ _ _ _ _ _) as [proto|]; [|by eexists]. cbn.
  destruct (_initialize _).2 as [d0|]; [|by eexists]. cbn.
  destruct (comprehension _ (range count)) as [es|]; [|by eexists]. cbn.
  destruct (seed_each env_seed es _) as [es1 [[]|x]]; [|by eexists]. cbn.
  destruct (forallb isinstance_int items); by eexists.
Qed.

(** X24: for an environment family whose action space is a [Tuple],
    construction raises the [AssertionError] of the first assertion of
    [_initialize], whatever the instance count, the seed, the options
    and the render mode - a render mode that resolution would refuse on
    its own included. *)
Theorem init_with_tuple_action_raises
  (gym_env_name : string) (count seed : Z) (mode : render_mode) (kwargs : gmap string bool)
  made slots :
  family_env gym_env_name (flag kwargs "skip") (flag kwargs "stack")
    (flag kwargs "grayscale") (flag kwargs "resize") (flag kwargs "scale") = Ok made →
  action_space_of made = Tuple slots →
  init gym_env_name count seed mode kwargs = Raise (AssertionError msg_available_type).
Proof.
  intros Hmade Haction. unfold __init__. cbv zeta. rewrite Hmade. cbn.
  unfold _initialize, as_prototype. cbn. rewrite Haction. cbn.
  by rewrite andb_false_r.
Qed.
End ConstructionFacts.

(** ** The further properties at work on the stub *)

Lemma render_resolution_changes_render_index_only_witness :
  envs (_get_render_index first_k two_fresh (RenderStr "all")).1 = envs two_fresh.
Proof.
  exact (proj1 (proj2 (render_resolution_changes_render_index_only first_k two_fresh
                         (RenderStr "all") _ _ eq_refl))).
Defined.

Lemma render_string_without_one_underscore_raises_witness :
  _get_render_index first_k two_fresh (RenderStr "random_2_3") = (two_fresh, Raise ValueError).
Proof.
  apply (render_string_without_one_underscore_raises first_k two_fresh "random_2_3");
    [discriminate | discriminate | discriminate | cbn; lia].
Defined.

Lemma render_random_resolution_witness :
  _get_render_index first_k two_fresh (RenderStr "random_2")
  = (set_render_index two_fresh [0; 1]%Z, Ok ()).
Proof.
  exact (render_random_resolution first_k two_fresh "2" eq_refl eq_refl).
Defined.

Lemma render_returns_iff_indices_in_range_witness :
  (render (set_render_index two_fresh [1; -2]%Z)).2 = Ok ().
Proof.
  assert (Hrender : ∀ e : stub, (env_render e).2 = Ok ()) by reflexivity.
  destruct (render_returns_iff_indices_in_range (set_render_index two_fresh [1; -2]%Z)
              [1; -2]%Z eq_refl Hrender) as [[_ Hback] _].
  apply Hback. repeat constructor; cbn; lia.
Defined.

Lemma render_all_renders_every_instance_witness :
  render_index (_get_render_index first_k two_fresh (RenderStr "all")).1 = Some [0; 1]%Z.
Proof.
  assert (Hwf : well_formed two_fresh) by reflexivity.
  assert (Hrender : ∀ e : stub, e ∈ envs two_fresh → (env_render e).2 = Ok ())
    by reflexivity.
  exact (proj1 (render_all_renders_every_instance first_k two_fresh Hwf Hrender)).
Defined.

Lemma reset_with_missing_instances_raises_witness :
  reset short_handed = (set_dones_index short_handed (PyList []), Raise IndexError).
Proof.
  apply (reset_with_missing_instances_raises short_handed). cbn. lia.
Defined.

Lemma step_without_instances_raises_witness :
  step (manager_of []) (Arr1 [1; 0]%Z) = (manager_of [], Raise ValueError).
Proof.
  apply (step_without_instances_raises (H:=stub_environment) (manager_of []) (Arr1 [1; 0]%Z)). cbn. lia.
Defined.

Lemma step_with_short_batch_raises_witness :
  step stepped_once (Arr1 [1]%Z) = (stepped_once, Raise IndexError).
Proof.
  apply (step_with_short_batch_raises (H:=stub_environment) stepped_once (Arr1 [1]%Z)
           [AScalar 1%Z]); reflexivity.
Defined.

Lemma step_ignores_surplus_actions_witness :
  step stepped_once (Arr1 ([1; 0] ++ [7; 7; 7])%Z) = step stepped_once (Arr1 [1; 0]%Z).
Proof.
  apply (step_ignores_surplus_actions (H:=stub_environment) stepped_once [1; 0]%Z [7; 7; 7]%Z);
    [reflexivity | vm_compute; discriminate].
Defined.

Lemma step_failure_keeps_dones_index_witness :
  dones_index (step both_done (Arr1 [1]%Z)).1 = Some (NdArray [0; 1]%Z).
Proof.
  assert (Hstep : step both_done (Arr1 [1]%Z)
                  = ((step both_done (Arr1 [1]%Z)).1, Raise IndexError)) by reflexivity.
  exact (step_failure_keeps_dones_index (H:=stub_environment) both_done (Arr1 [1]%Z) _ _ Hstep).
Defined.

Lemma step_discrete_is_slotwise_witness :
  ∃ self' observations reward done infos,
    step staggered (Arr1 [0; 0; 0; 0]%Z) = (self', Ok (observations, reward, done, infos))
    ∧ done !! 1 = Some true.
Proof.
  assert (Hwf : well_formed staggered) by reflexivity.
  destruct (step_discrete_is_slotwise (H:=stub_environment) staggered (Arr1 [0; 0; 0; 0]%Z) Hwf eq_refl)
    as (self' & observations & reward & done & infos & Hstep & Hslot).
  - cbn. lia.
  - cbn. lia.
  - intros k e a He _.
    destruct k as [|[|[|[|k]]]]; cbn in He; try discriminate;
      injection He as <-; by eexists.
  - exists self', observations, reward, done, infos. split; [exact Hstep|].
    by destruct (Hslot 1 seasoned 0%Z _ 2 1%Z true () eq_refl eq_refl eq_refl)
      as (_ & _ & _ & Hdone & _).
Defined.

Lemma partial_reset_after_step_resets_done_slots_only_witness :
  ∃ self2 batch,
    partial_reset (step staggered (Arr1 [0; 0; 0; 0]%Z)).1 = (self2, Ok batch)
    ∧ length batch = 2.
Proof.
  assert (Hwf : well_formed staggered) by reflexivity.
  assert (Hstep : step staggered (Arr1 [0; 0; 0; 0]%Z)
                  = ((step staggered (Arr1 [0; 0; 0; 0]%Z)).1,
                     Ok ([1; 2; 1; 2], [1; 1; 1; 1]%Z, [false; true; false; true],
                         [(); (); (); ()]))) by reflexivity.
  destruct (partial_reset_after_step_resets_done_slots_only _ _ _ _ _ _ _ Hwf Hstep)
    as (self2 & batch & Hreset & Hlen & _).
  exists self2, batch. split; [exact Hreset | exact Hlen].
Defined.

Lemma close_stops_at_first_failure_witness :
  gym_envs_close stub_close (manager_of [fresh; faulty; fresh])
  = (set_envs (manager_of [fresh; faulty; fresh]) [(stub_close fresh).1; faulty; fresh],
     Raise (Exception "broken")).
Proof.
  apply (close_stops_at_first_failure stub_close (manager_of [fresh; faulty; fresh])
           [fresh] faulty [fresh] (Exception "broken")); [reflexivity | | reflexivity].
  intros e [->|[]%elem_of_nil]%elem_of_cons. reflexivity.
Defined.

Lemma close_closes_every_instance_witness :
  gym_envs_close stub_shut two_fresh
  = (set_envs two_fresh [(stub_shut fresh).1; (stub_shut fresh).1], Ok ()).
Proof.
  exact (proj1 (close_closes_every_instance stub_shut two_fresh (λ e, eq_refl))).
Defined.

Lemma sample_actions_is_slotwise_witness :
  ∃ actions, (sample_actions stub_action_sample (manager_of [fresh; seasoned])).2 = Ok actions
             ∧ length actions = 2.
Proof.
  destruct (sample_actions_is_slotwise stub_action_sample (manager_of [fresh; seasoned]))
    as (actions & Hsample & Hlen & _).
  - intros e [->|[->|[]%elem_of_nil]%elem_of_cons]%elem_of_cons; by eexists.
  - exists actions. split; [by rewrite Hsample | exact Hlen].
Defined.

Lemma get_env_ignores_image_options_witness :
  get_env stub_make id id id id id id (λ e _ _, e) stub_observation_space stub_action_space
    "Stub-v0" false true true true true
  = get_env stub_make id id id id id id (λ e _ _, e) stub_observation_space stub_action_space
      "Stub-v0" false true false false false.
Proof.
  apply (proj1 (get_env_ignores_image_options stub_make id id id id id id (λ e _ _, e)
                  stub_observation_space stub_action_space
                  "Stub-v0" false true true true true fresh eq_refl)).
  intros shape low high [= <-]. discriminate.
Defined.

Lemma init_builds_seeded_instances_witness :
  ∃ self d seeds,
    stub_init 3 10 (RenderStr "all") ∅ = Ok (self, d, seeds)
    ∧ length (envs self) = 3 ∧ seeds = [10; 11; 12]%Z.
Proof.
  assert (Hinit : stub_init 3 10 (RenderStr "all") ∅
                  = Ok (set_render_index
                          (manager_of [(stub_seed fresh 10).1; (stub_seed fresh 11).1;
                                       (stub_seed fresh 12).1])
                          [0; 1; 2]%Z,
                        {| s_dim := 4; obs_bounds := Some ((), ()); obs_type := vector;
                           visual_sources := 0; visual_resolution := [];
                           action_type := discrete; _is_continuous := false;
                           a_dim_or_list := [2%Z]; reward_threshold := Some 195%Z |},
                        [10; 11; 12]%Z)) by (vm_compute; reflexivity).
  eexists _, _, _. split; [exact Hinit|]. unfold stub_init in Hinit.
  destruct (init_builds_seeded_instances (H:=stub_environment)
              stub_make id id id id id id (λ e _ _, e)
              stub_observation_space stub_action_space stub_threshold stub_seed first_k
              "Stub-v0" 3 10 (RenderStr "all") ∅ _ _ _ Hinit)
    as (_ & Hlen & _ & Hseeds & _).
  split; [exact Hlen | exact Hseeds].
Defined.

Lemma init_with_tuple_action_raises_witness :
  __init__ stub_make id id id id id id (λ e _ _, e)
    stub_observation_space stub_tuple_action_space stub_threshold stub_seed first_k
    "Stub-v0" 2 0 (RenderStr "first") ∅
  = Raise (AssertionError msg_available_type).
Proof.
  apply (init_with_tuple_action_raises stub_make id id id id id id (λ e _ _, e)
           stub_observation_space stub_tuple_action_space stub_threshold stub_seed first_k
           "Stub-v0" 2 0 (RenderStr "first") ∅ fresh [Discrete 2; Discrete 3]);
    reflexivity.
Defined.
